(** * E-consult: the one-time-passcode service and its HTTP endpoint

    A shallow embedding of [src/integrations/otp/otpService.ts] and of
    [src/pages/api/otp.ts], and the properties of the passcode
    issuer/verifier established on it.

    Conventions of the embedding.
    - [Date.now()] is an integer number of milliseconds, a [Z]; the sum
      [Date.now() + OTP_EXPIRY_TIME] is exact at that magnitude.
    - [Math.random()] is an IEEE 754 binary64 value, a [spec_float] of the
      Standard Library; [*] and [+] on Numbers are [SFmul] and [SFadd] at
      precision 53, round to nearest, ties to even.
    - [otpStorage] is an ordinary object created by the literal [{}]: its own
      properties are a [gmap] from strings to records, and a property read
      that finds no own property continues in [Object.prototype].
    - Strings are [string]s of bytes; a test for an ASCII suffix gives the
      same answer on the UTF-8 bytes as on JavaScript's code units.
    - The clock, the random source and the messaging gateway are read from an
      environment [env], one per call; a thrown [Error] is the [Throw]
      outcome of a small state-and-exception monad over the [world].
    - [req.body] is whatever the body parser produced: [undefined] or a JSON
      value of any shape.  Two things are the JavaScript engine's and come
      with the environment: the numeral of a Number used as a property key,
      and the text of the message of a [TypeError]. *)

From Stdlib Require Import ZArith String Ascii List Lia Bool.
From Stdlib Require Import Floats.SpecFloat.
From stdpp Require Import base option gmap strings list fin_maps.

Local Open Scope string_scope.
Local Open Scope Z_scope.

(** ** Numbers *)

Module Number.

Definition prec : Z := 53.
Definition emax : Z := 1024.

(** A Number literal with an integer value. *)
Definition of_Z (z : Z) : spec_float := binary_normalize prec emax z 0 false.

Definition mul (x y : spec_float) : spec_float := SFmul prec emax x y.
Definition add (x y : spec_float) : spec_float := SFadd prec emax x y.

(** The result of [Math.floor]: an integral Number, or one of the values
    that have no integer part. *)
Inductive integral :=
| INaN
| IInfinity (negative : bool)
| IInt (n : Z).

Definition Math_floor (x : spec_float) : integral :=
  match x with
  | S754_nan => INaN
  | S754_infinity s => IInfinity s
  | S754_zero _ => IInt 0
  | S754_finite s m e =>
      let n := if s then Z.neg m else Z.pos m in
      IInt (match e with
            | Z.neg p => n / 2 ^ Z.pos p
            | _ => n * 2 ^ e
            end)
  end.

Definition digit_char (d : Z) : ascii := ascii_of_nat (48 + Z.to_nat d).

Fixpoint decimal_go (fuel : nat) (n : Z) (acc : string) : string :=
  match fuel with
  | O => acc
  | S fuel' =>
      let acc' := String (digit_char (n mod 10)) acc in
      if n / 10 =? 0 then acc' else decimal_go fuel' (n / 10) acc'
  end.

(** The decimal numeral of a natural number, most significant digit
    first, without leading zeros. *)
Definition decimal (n : Z) : string :=
  decimal_go (S (Z.to_nat (Z.log2 n))) n "".

(** [Number.prototype.toString] on the result of [Math.floor]: for an
    integral value of magnitude below 10^21 the numeral is the decimal
    expansion of the integer. *)
Definition toString (x : integral) : string :=
  match x with
  | INaN => "NaN"
  | IInfinity false => "Infinity"
  | IInfinity true => "-Infinity"
  | IInt n => if n <? 0 then "-" ++ decimal (- n) else decimal n
  end.

(** Reading a numeral back: the value of a string of decimal digits. *)
Definition is_digit (c : ascii) : bool :=
  let k := Z.of_nat (nat_of_ascii c) in (48 <=? k) && (k <=? 57).

Fixpoint all_digits (s : string) : bool :=
  match s with
  | EmptyString => true
  | String c s' => is_digit c && all_digits s'
  end.

Fixpoint value_from (acc : Z) (s : string) : Z :=
  match s with
  | EmptyString => acc
  | String c s' => value_from (10 * acc + (Z.of_nat (nat_of_ascii c) - 48)) s'
  end.

Definition numeral_value (s : string) : Z := value_from 0 s.

End Number.

(** ** Strings *)

(** [s.endsWith(suffix)]: [suffix] is [s] itself or a suffix of its tail. *)
Fixpoint endsWith (s suffix : string) : bool :=
  String.eqb s suffix
  || match s with
     | EmptyString => false
     | String _ s' => endsWith s' suffix
     end.

(** ** The store and the effects *)

Definition FAST2SMS_API_KEY : string := "your-fast2sms-api-key".
Definition OTP_EXPIRY_TIME : Z := 5 * 60 * 1000.

Record PasscodeRecord := { otp : string; expiry : Z }.

(** The names [Object.prototype] defines (ECMAScript, with Annex B): what a
    read of a property of [{}] finds when the object has no own property of
    that name.  All of them are functions or, for [__proto__], the prototype
    object itself: truthy values with no [otp] and no [expiry] property. *)
Definition Object_prototype_keys : list string :=
  [ "constructor"; "__defineGetter__"; "__defineSetter__"; "hasOwnProperty";
    "__lookupGetter__"; "__lookupSetter__"; "isPrototypeOf";
    "propertyIsEnumerable"; "toString"; "valueOf"; "__proto__";
    "toLocaleString" ].

(** The value of the expression [otpStorage[email]]. *)
Inductive property :=
| PUndefined
| POwn (record : PasscodeRecord)
| PInherited.

Definition get_property (storage : gmap string PasscodeRecord) (key : string)
  : property :=
  match storage !! key with
  | Some record => POwn record
  | None =>
      if bool_decide (key ∈ Object_prototype_keys) then PInherited
      else PUndefined
  end.

(** The five kinds of failure of the service, and what else can be thrown:
    the rejection of the HTTP call to the gateway, and the [TypeError] of
    the engine, with its message, when a value is used as it cannot be. *)
Inductive otp_error :=
| InvalidSubjectError
| DeliveryError
| NotFoundError
| ExpiredError
| MismatchError.

Inductive js_error :=
| Error (kind : otp_error)
| AxiosError (reason : string)
| TypeError (message : string).

(** Where the endpoint can meet a [TypeError]: destructuring a body that is
    [undefined] or [null], calling [endsWith] on a value that is not a
    string, and converting an object to a property key. *)
Inductive type_error :=
| CannotDestructureUndefined
| CannotDestructureNull
| NotAFunction
| CannotConvertToPrimitive.

Definition error_message (kind : otp_error) : string :=
  match kind with
  | InvalidSubjectError => "Only Gmail addresses are allowed."
  | DeliveryError => "Failed to send OTP. Please try again."
  | NotFoundError => "No OTP found for this email."
  | ExpiredError => "OTP has expired."
  | MismatchError => "Invalid OTP."
  end.

Definition message_of (e : js_error) : string :=
  match e with
  | Error kind => error_message kind
  | AxiosError reason => reason
  | TypeError message => message
  end.

(** One request to the gateway, as [axios.post] receives it. *)
Record dispatch := {
  url : string;
  numbers : string;
  message : string;
  authorization : string
}.

(** A value of the parsed body: what [JSON.parse] can produce.  The members
    of an object are in the order of the text; a later member of the same
    name replaces an earlier one.  [undefined] is the [None] of
    [option value]. *)
#[warnings="-register-all"]
Inductive value :=
| VNull
| VBool (b : bool)
| VNumber (x : spec_float)
| VString (s : string)
| VArray (items : list value)
| VObject (members : list (string * value)).

Inductive service_call :=
| CalledGenerateAndSendOtp (email : value)
| CalledVerifyOtp (email candidate : value).

Record world := {
  otpStorage : gmap string PasscodeRecord;
  outbox : list dispatch;
  calls : list service_call
}.

Record env := {
  now : Z;
  random : spec_float;
  gateway : dispatch -> option string;
  Number_toString : spec_float -> string;
  TypeError_message : type_error -> string
}.

Inductive outcome (A : Type) :=
| Return (a : A)
| Throw (e : js_error).
Arguments Return {A} a.
Arguments Throw {A} e.

Definition M (A : Type) : Type := world -> outcome A * world.

Definition ret {A} (a : A) : M A := fun w => (Return a, w).
Definition throw {A} (e : js_error) : M A := fun w => (Throw e, w).

Definition bind {A B} (m : M A) (k : A -> M B) : M B :=
  fun w =>
    match m w with
    | (Return a, w') => k a w'
    | (Throw e, w') => (Throw e, w')
    end.

Definition try_catch {A} (m : M A) (handler : js_error -> M A) : M A :=
  fun w =>
    match m w with
    | (Return a, w') => (Return a, w')
    | (Throw e, w') => handler e w'
    end.

#[export] Instance M_ret : MRet M := @ret.
#[export] Instance M_bind : MBind M := fun A B k m => bind m k.

Definition read_storage : M (gmap string PasscodeRecord) :=
  fun w => (Return (otpStorage w), w).

Definition write_storage (f : gmap string PasscodeRecord -> gmap string PasscodeRecord)
  : M unit :=
  fun w => (Return tt,
            {| otpStorage := f (otpStorage w);
               outbox := outbox w;
               calls := calls w |}).

Definition record_call (c : service_call) : M unit :=
  fun w => (Return tt,
            {| otpStorage := otpStorage w;
               outbox := outbox w;
               calls := calls w ++ [c] |}).

(** [axios.post(url, data, config)]: the request leaves the process; the
    gateway answers [None] when it accepts it and [Some reason] when the
    promise is rejected. *)
Definition axios_post (e : env) (d : dispatch) : M unit :=
  fun w =>
    let w' := {| otpStorage := otpStorage w;
                 outbox := outbox w ++ [d];
                 calls := calls w |} in
    match gateway e d with
    | None => (Return tt, w')
    | Some reason => (Throw (AxiosError reason), w')
    end.

(** ** The service: [otpService.ts] *)

Definition generateOtp (e : env) : string :=
  Number.toString
    (Number.Math_floor
       (Number.add (Number.of_Z 100000)
                   (Number.mul (random e) (Number.of_Z 900000)))).

Definition otp_request (email code : string) : dispatch :=
  let message := "Your OTP is " ++ code ++ ". It is valid for 5 minutes." in
  {| url := "https://www.fast2sms.com/dev/bulkV2";
     numbers := email;
     message := message;
     authorization := FAST2SMS_API_KEY |}.

Definition sendOtp (e : env) (email code : string) : M unit :=
  try_catch
    (axios_post e (otp_request email code))
    (fun _ => throw (Error DeliveryError)).

Definition generateAndSendOtp (e : env) (email : string) : M unit :=
  if negb (endsWith email "@gmail.com") then
    throw (Error InvalidSubjectError)
  else
    let code := generateOtp e in
    let expiry := now e + OTP_EXPIRY_TIME in
    write_storage (insert email {| otp := code; expiry := expiry |});;
    sendOtp e email code.

Definition verifyOtp (e : env) (email candidate : string) : M bool :=
  storage ← read_storage;
  match get_property storage email with
  | PUndefined => throw (Error NotFoundError)
  | POwn record =>
      if expiry record <? now e then
        write_storage (delete email);;
        throw (Error ExpiredError)
      else if negb (String.eqb (otp record) candidate) then
        throw (Error MismatchError)
      else
        write_storage (delete email);;
        ret true
  | PInherited =>
      (* [record.expiry] is [undefined], and [undefined < Date.now()] is
         false; [record.otp] is [undefined], which differs from any string *)
      throw (Error MismatchError)
  end.

(** ** The endpoint: [pages/api/otp.ts] *)

Record request := {
  method : string;
  body : option value
}.

Inductive json :=
| JError (error : string)
| JSuccess (success : bool)
| JMessage (message : string).

Record response := {
  status : Z;
  headers : list (string * list string);
  payload : json
}.

(** The own property [name] of an object of the body: the last member of
    that name. *)
Fixpoint lookup_member (name : string) (members : list (string * value))
  : option value :=
  match members with
  | [] => None
  | (key, v) :: rest =>
      match lookup_member name rest with
      | Some v' => Some v'
      | None => if String.eqb key name then Some v else None
      end
  end.

(** [body.email] and [body.otp], for a body that is neither [undefined] nor
    [null]: a member of an object; [undefined] for a primitive or an array,
    whose prototypes define neither name, and for an object without such a
    member. *)
Definition get_member (name : string) (b : value) : option value :=
  match b with
  | VObject members => lookup_member name members
  | _ => None
  end.

(** ToBoolean: [undefined], [null], [false], the zeros, NaN and the empty
    string are falsy; every other value, the empty array and the empty
    object included, is truthy. *)
Definition truthy (field : option value) : bool :=
  match field with
  | None => false
  | Some VNull => false
  | Some (VBool b) => b
  | Some (VNumber (S754_zero _)) => false
  | Some (VNumber S754_nan) => false
  | Some (VNumber _) => true
  | Some (VString s) => negb (String.eqb s "")
  | Some (VArray _) => true
  | Some (VObject _) => true
  end.

Definition has_member (name : string) (members : list (string * value)) : bool :=
  match lookup_member name members with
  | Some _ => true
  | None => false
  end.

(** ToPropertyKey on a value of the body, [None] when it throws.  An array
    is joined with commas, [null] elements giving the empty string; an
    object is "[object Object]" unless a member named [toString] hides the
    method of [Object.prototype]: no value of the body is callable, and
    the conversion fails. *)
Fixpoint ToPropertyKey (e : env) (v : value) : option string :=
  match v with
  | VNull => Some "null"
  | VBool true => Some "true"
  | VBool false => Some "false"
  | VNumber x => Some (Number_toString e x)
  | VString s => Some s
  | VArray items =>
      (fix join (l : list value) : option string :=
         match l with
         | [] => Some ""
         | x :: rest =>
             let first := match x with
                          | VNull => Some ""
                          | _ => ToPropertyKey e x
                          end in
             match first, rest with
             | None, _ => None
             | Some s, [] => Some s
             | Some s, _ :: _ =>
                 match join rest with
                 | Some r => Some (s ++ "," ++ r)
                 | None => None
                 end
             end
         end) items
  | VObject members =>
      if has_member "toString" members then None else Some "[object Object]"
  end.

(** [generateAndSendOtp(email)] as the handler calls it, with whatever value
    the body holds: the call [email.endsWith(...)] throws a [TypeError] for
    everything but a string. *)
Definition generateAndSendOtp_any (e : env) (email : value) : M unit :=
  match email with
  | VString s => generateAndSendOtp e s
  | _ => throw (TypeError (TypeError_message e NotAFunction))
  end.

(** [verifyOtp(email, otp)] as the handler calls it: [email] is only used as
    a property key, and a stored code, a string, is [!==] every [otp] that is
    not a string. *)
Definition verifyOtp_any (e : env) (email candidate : value) : M bool :=
  match ToPropertyKey e email with
  | None => throw (TypeError (TypeError_message e CannotConvertToPrimitive))
  | Some key =>
      match candidate with
      | VString s => verifyOtp e key s
      | _ =>
          storage ← read_storage;
          match get_property storage key with
          | PUndefined => throw (Error NotFoundError)
          | POwn record =>
              if expiry record <? now e then
                write_storage (delete key);;
                throw (Error ExpiredError)
              else
                throw (Error MismatchError)
          | PInherited => throw (Error MismatchError)
          end
      end
  end.

Definition handler (e : env) (req : request) : M response :=
  try_catch
    (if String.eqb (method req) "POST" then
       match body req with
       | None =>
           throw (TypeError (TypeError_message e CannotDestructureUndefined))
       | Some VNull =>
           throw (TypeError (TypeError_message e CannotDestructureNull))
       | Some b =>
           let email := get_member "email" b in
           let otp := get_member "otp" b in
           match email, truthy email with
           | Some email, true =>
               match otp, truthy otp with
               | Some candidate, true =>
                   record_call (CalledVerifyOtp email candidate);;
                   isValid ← verifyOtp_any e email candidate;
                   ret {| status := 200; headers := [];
                          payload := JSuccess isValid |}
               | _, _ =>
                   record_call (CalledGenerateAndSendOtp email);;
                   generateAndSendOtp_any e email;;
                   ret {| status := 200; headers := [];
                          payload := JMessage "OTP sent successfully." |}
               end
           | _, _ =>
               ret {| status := 400; headers := [];
                      payload := JError "Email is required." |}
           end
       end
     else
       ret {| status := 405; headers := [("Allow", ["POST"])];
              payload := JError ("Method " ++ method req ++ " not allowed.") |})
    (fun error =>
       ret {| status := 500; headers := [];
              payload := JError (message_of error) |}).

(** ** Sequences of operations on the store *)

Inductive operation :=
| Issue (e : env) (email : string)
| Verify (e : env) (email candidate : string).

Definition step (w : world) (op : operation) : world :=
  match op with
  | Issue e email => snd (generateAndSendOtp e email w)
  | Verify e email candidate => snd (verifyOtp e email candidate w)
  end.

Definition run (ops : list operation) (w : world) : world :=
  fold_left step ops w.

Definition initial_world : world :=
  {| otpStorage := ∅; outbox := []; calls := [] |}.

(** Sample values: the Number 0.5, and an environment with a clock reading,
    a random draw and a gateway that answers every request alike; its
    numerals are those of integral Numbers and its messages those of V8. *)
Definition one_half : spec_float := S754_finite false 4503599627370496 (-53).

Definition sample_message (cause : type_error) : string :=
  match cause with
  | CannotDestructureUndefined =>
      "Cannot destructure property 'email' of 'req.body' as it is undefined."
  | CannotDestructureNull =>
      "Cannot destructure property 'email' of 'req.body' as it is null."
  | NotAFunction => "email.endsWith is not a function"
  | CannotConvertToPrimitive => "Cannot convert object to primitive value"
  end.

Definition sample_env (t : Z) (r : spec_float) (answer : option string) : env :=
  {| now := t; random := r; gateway := fun _ => answer;
     Number_toString := fun x => Number.toString (Number.Math_floor x);
     TypeError_message := sample_message |}.

(** The records the mapping holds for one subject. *)
Definition records_for (email : string) (storage : gmap string PasscodeRecord)
  : list (string * PasscodeRecord) :=
  filter (fun kv => kv.1 = email) (map_to_list storage).

Definition with_storage (w : world) (storage : gmap string PasscodeRecord)
  : world :=
  {| otpStorage := storage; outbox := outbox w; calls := calls w |}.

(** The record a call of [generateAndSendOtp] stores, and the world it
    leaves for an accepted subject. *)
Definition issued (e : env) : PasscodeRecord :=
  {| otp := generateOtp e; expiry := now e + OTP_EXPIRY_TIME |}.

Definition after_issue (e : env) (email : string) (w : world) : world :=
  {| otpStorage := <[email := issued e]> (otpStorage w);
     outbox := outbox w ++ [otp_request email (generateOtp e)];
     calls := calls w |}.

(** The keys of the store are subjects the allowlist accepted. *)
Definition keys_accepted (w : world) : Prop :=
  ∀ key record, otpStorage w !! key = Some record →
                endsWith key "@gmail.com" = true.

(** ** The value of a binary64 number, and rounding

    For the analysis of [generateOtp]: the value of a non-negative number in
    units of 2^-1107, an integer for every number the computation meets, and
    rounding to nearest, ties to even, on such integers. *)

Definition scale : Z := 1107.

(** The value of a non-negative finite number, in units of 2^-[scale]. *)
Definition scaled (x : spec_float) : Z :=
  match x with
  | S754_finite false m e => Z.pos m * 2 ^ (e + scale)
  | _ => 0
  end.

(** [V / 2^t] rounded to the nearest integer, a tie going to the even one. *)
Definition rne (V t : Z) : Z :=
  let q := V / 2 ^ t in
  match 2 * (V mod 2 ^ t) ?= 2 ^ t with
  | Lt => q
  | Gt => q + 1
  | Eq => if Z.even q then q else q + 1
  end.

(** The binary64 number nearest to [V] units: 53 significant bits, and no
    bit below 2^-1074, which is 2^33 units. *)
Definition round53 (V : Z) : Z :=
  let t := Z.max (Z.log2 V - 52) 33 in rne V t * 2 ^ t.

Definition nonneg_finite (x : spec_float) : Prop :=
  match x with
  | S754_zero false => True
  | S754_finite false _ e => -1074 <= e
  | _ => False
  end.

(** The record after [k] halvings of [M]: the quotient, the last bit shifted
    out and whether any bit below it was set. *)
Definition shifted (M k : Z) (mrs : shr_record) : Prop :=
  ∃ rest,
    0 <= rest < 2 ^ (k - 1) ∧
    M = shr_m mrs * 2 ^ k + Z.b2z (shr_r mrs) * 2 ^ (k - 1) + rest ∧
    (shr_s mrs = negb (rest =? 0)) ∧
    0 <= shr_m mrs.

(** A binary64 number in the interval from 0, included, to 1, excluded: what
    [Math.random()] returns. *)
Definition in_unit_interval (r : spec_float) : bool :=
  valid_binary 53 1024 r && SFleb (S754_zero false) r && SFltb r (Number.of_Z 1).

(** The largest product [Math.random() * 900000] before rounding, the
    Number 100000, and the largest sum before rounding, in units. *)
Definition product_top : Z := (2 ^ 53 - 1) * 7730941132800000 * 2 ^ 1021.
Definition hundred_thousand : Z := 6871947673600000 * 2 ^ (-36 + scale).
Definition sum_top : Z := hundred_thousand + 7730941132799999 * 2 ^ 1074.

(** * Properties *)

(** ** The monad and the store *)

Lemma with_storage_same (w : world) : with_storage w (otpStorage w) = w.
Proof. by destruct w. Qed.

Lemma otpStorage_with_storage (w : world) storage :
  otpStorage (with_storage w storage) = storage.
Proof. done. Qed.

Lemma endsWith_gmail_not_inherited (email : string) :
  endsWith email "@gmail.com" = true → email ∉ Object_prototype_keys.
Proof.
  intros Hvalid Hin. unfold Object_prototype_keys in Hin.
  repeat (apply elem_of_cons in Hin as [-> | Hin];
          [vm_compute in Hvalid; discriminate |]).
  by apply elem_of_nil in Hin.
Qed.

Lemma get_property_own storage key record :
  storage !! key = Some record → get_property storage key = POwn record.
Proof. intros H. unfold get_property. by rewrite H. Qed.

Lemma get_property_absent storage key :
  storage !! key = None → key ∉ Object_prototype_keys →
  get_property storage key = PUndefined.
Proof.
  intros H Hk. unfold get_property. rewrite H.
  by rewrite bool_decide_eq_false_2.
Qed.

Lemma get_property_inherited storage key :
  storage !! key = None → key ∈ Object_prototype_keys →
  get_property storage key = PInherited.
Proof.
  intros H Hk. unfold get_property. rewrite H.
  by rewrite bool_decide_eq_true_2.
Qed.

(** ** What each operation of the service does to the world *)

Lemma generateAndSendOtp_valid (e : env) (email : string) (w : world) :
  endsWith email "@gmail.com" = true →
  generateAndSendOtp e email w =
    (match gateway e (otp_request email (generateOtp e)) with
     | None => Return tt
     | Some _ => Throw (Error DeliveryError)
     end, after_issue e email w).
Proof.
  intros Hvalid. unfold generateAndSendOtp. rewrite Hvalid. simpl.
  unfold mbind, M_bind, bind, write_storage, sendOtp, try_catch, axios_post.
  simpl. by destruct (gateway e _).
Qed.

Lemma generateAndSendOtp_invalid (e : env) (email : string) (w : world) :
  endsWith email "@gmail.com" = false →
  generateAndSendOtp e email w = (Throw (Error InvalidSubjectError), w).
Proof. intros Hinvalid. unfold generateAndSendOtp. by rewrite Hinvalid. Qed.

Lemma verifyOtp_own (e : env) (email candidate : string) (w : world) record :
  otpStorage w !! email = Some record →
  verifyOtp e email candidate w =
    if expiry record <? now e then
      (Throw (Error ExpiredError), with_storage w (delete email (otpStorage w)))
    else if negb (String.eqb (otp record) candidate) then
      (Throw (Error MismatchError), w)
    else
      (Return true, with_storage w (delete email (otpStorage w))).
Proof.
  intros Hrec. unfold verifyOtp, mbind, M_bind, bind, read_storage.
  rewrite (get_property_own _ _ _ Hrec).
  destruct (expiry record <? now e); [done |].
  by destruct (negb (String.eqb (otp record) candidate)).
Qed.

Lemma verifyOtp_undefined (e : env) (email candidate : string) (w : world) :
  otpStorage w !! email = None → email ∉ Object_prototype_keys →
  verifyOtp e email candidate w = (Throw (Error NotFoundError), w).
Proof.
  intros Hnone Hk. unfold verifyOtp, mbind, M_bind, bind, read_storage.
  by rewrite get_property_absent.
Qed.

Lemma verifyOtp_inherited (e : env) (email candidate : string) (w : world) :
  otpStorage w !! email = None → email ∈ Object_prototype_keys →
  verifyOtp e email candidate w = (Throw (Error MismatchError), w).
Proof.
  intros Hnone Hk. unfold verifyOtp, mbind, M_bind, bind, read_storage.
  by rewrite get_property_inherited.
Qed.

Lemma verifyOtp_wrong_code (e : env) (email candidate : string) (w : world)
    record :
  otpStorage w !! email = Some record →
  now e ≤ expiry record →
  candidate ≠ otp record →
  verifyOtp e email candidate w = (Throw (Error MismatchError), w).
Proof.
  intros Hrec Hlive Hdiff. rewrite (verifyOtp_own _ _ _ _ _ Hrec).
  destruct (Z.ltb_spec (expiry record) (now e)); [lia |].
  destruct (String.eqb_spec (otp record) candidate); [congruence | done].
Qed.

Lemma verifyOtp_right_code (e : env) (email : string) (w : world) record :
  otpStorage w !! email = Some record →
  now e ≤ expiry record →
  verifyOtp e email (otp record) w
    = (Return true, with_storage w (delete email (otpStorage w))).
Proof.
  intros Hrec Hlive. rewrite (verifyOtp_own _ _ _ _ _ Hrec).
  destruct (Z.ltb_spec (expiry record) (now e)); [lia |].
  by rewrite String.eqb_refl.
Qed.

(** A successful verification finds an own record with the candidate code,
    not yet expired, and removes it. *)
Lemma verifyOtp_success_inv (e : env) (email candidate : string) (w : world) b :
  fst (verifyOtp e email candidate w) = Return b →
  b = true ∧
  ∃ record, otpStorage w !! email = Some record ∧ otp record = candidate ∧
            now e ≤ expiry record ∧
            snd (verifyOtp e email candidate w)
              = with_storage w (delete email (otpStorage w)).
Proof.
  destruct (otpStorage w !! email) as [record |] eqn:Hrec.
  - rewrite (verifyOtp_own _ _ _ _ _ Hrec).
    destruct (Z.ltb_spec (expiry record) (now e)); [done |].
    destruct (String.eqb_spec (otp record) candidate); simpl; [| done].
    intros [= <-]. split; [done |]. by exists record.
  - destruct (decide (email ∈ Object_prototype_keys)).
    + by rewrite verifyOtp_inherited.
    + by rewrite verifyOtp_undefined.
Qed.

(** ** Issue, then verify *)

(** C1: for a subject that passes the domain allowlist, [generateAndSendOtp]
    stores a record with the generated code and the expiry five minutes
    ahead; [verifyOtp] with that subject and that code, at a time strictly
    before the expiry, returns [true] and deletes the record, after which
    the subject has no property in the store. *)
Theorem issue_then_verify_succeeds (e1 e2 : env) (email : string) (w : world) :
  endsWith email "@gmail.com" = true →
  now e2 < now e1 + OTP_EXPIRY_TIME →
  let w1 := snd (generateAndSendOtp e1 email w) in
  let result := verifyOtp e2 email (generateOtp e1) w1 in
  otpStorage w1 !! email
    = Some {| otp := generateOtp e1; expiry := now e1 + OTP_EXPIRY_TIME |} ∧
  fst result = Return true ∧
  otpStorage (snd result) = delete email (otpStorage w1) ∧
  otpStorage (snd result) !! email = None ∧
  get_property (otpStorage (snd result)) email = PUndefined.
Proof.
  intros Hvalid Hlive w1 result. subst result w1.
  rewrite generateAndSendOtp_valid by done.
  split; [apply lookup_insert_eq |].
  rewrite (verifyOtp_own e2 email _ (after_issue e1 email w) (issued e1))
    by apply lookup_insert_eq.
  simpl. destruct (Z.ltb_spec (now e1 + OTP_EXPIRY_TIME) (now e2)); [lia |].
  rewrite String.eqb_refl. simpl.
  split; [done |]. split; [done |]. split; [apply lookup_delete_eq |].
  apply get_property_absent; [apply lookup_delete_eq |].
  by apply endsWith_gmail_not_inherited.
Qed.

Lemma issue_then_verify_succeeds_witness :
  endsWith "a@gmail.com" "@gmail.com" = true ∧
  now (sample_env 60000 one_half None)
    < now (sample_env 0 one_half None) + OTP_EXPIRY_TIME ∧
  fst (verifyOtp (sample_env 60000 one_half None) "a@gmail.com"
         (generateOtp (sample_env 0 one_half None))
         (snd (generateAndSendOtp (sample_env 0 one_half None) "a@gmail.com"
                 initial_world)))
    = Return true.
Proof.
  split; [reflexivity |]. split; [reflexivity |].
  apply (issue_then_verify_succeeds (sample_env 0 one_half None)
           (sample_env 60000 one_half None) "a@gmail.com" initial_world);
    reflexivity.
Defined.

(** ** Verification without a record *)

(** What holds of a subject that has no own record: [verifyOtp] throws
    'No OTP found for this email.' unless the subject is one of the names
    [Object.prototype] defines, and leaves the world as it was. *)
Lemma verify_without_record_not_found (e : env) (email candidate : string)
    (w : world) :
  otpStorage w !! email = None →
  email ∉ Object_prototype_keys →
  verifyOtp e email candidate w = (Throw (Error NotFoundError), w).
Proof. apply verifyOtp_undefined. Qed.

(** After a successful verification a second attempt with the same inputs
    throws 'No OTP found for this email.' for every subject the allowlist
    accepts, the only subjects [generateAndSendOtp] stores a record for. *)
Lemma verify_twice_not_found (e1 e2 : env) (email candidate : string)
    (w : world) b :
  endsWith email "@gmail.com" = true →
  fst (verifyOtp e1 email candidate w) = Return b →
  fst (verifyOtp e2 email candidate (snd (verifyOtp e1 email candidate w)))
    = Throw (Error NotFoundError).
Proof.
  intros Hvalid Hok.
  destruct (verifyOtp_success_inv _ _ _ _ _ Hok) as (_ & record & _ & _ & _ & ->).
  rewrite verifyOtp_undefined; [done | apply lookup_delete_eq |].
  by apply endsWith_gmail_not_inherited.
Qed.

(** C2, at the input where the code departs from it: no record was ever
    issued for the subject "constructor", yet [verifyOtp] does not throw
    'No OTP found for this email.' but 'Invalid OTP.': the read
    [otpStorage["constructor"]] finds the property inherited from
    [Object.prototype]. *)
Theorem verify_inherited_name_is_mismatch (e : env) :
  otpStorage initial_world !! "constructor" = None ∧
  fst (verifyOtp e "constructor" "123456" initial_world)
    = Throw (Error MismatchError) ∧
  fst (verifyOtp e "constructor" "123456" initial_world)
    ≠ Throw (Error NotFoundError).
Proof. split; [done |]. split; [reflexivity | discriminate]. Qed.

(** ** Expired records *)

(** C3: when the stored record of a subject has an expiry strictly before
    the time of the call, [verifyOtp] deletes the record and throws
    'OTP has expired.', whatever the candidate code, the stored code
    included. *)
Theorem verify_expired (e : env) (email candidate : string) (w : world)
    (record : PasscodeRecord) :
  otpStorage w !! email = Some record →
  expiry record < now e →
  verifyOtp e email candidate w
    = (Throw (Error ExpiredError), with_storage w (delete email (otpStorage w))) ∧
  otpStorage (snd (verifyOtp e email candidate w)) !! email = None ∧
  verifyOtp e email (otp record) w
    = (Throw (Error ExpiredError), with_storage w (delete email (otpStorage w))).
Proof.
  intros Hrec Hexpired.
  rewrite !(verifyOtp_own _ _ _ _ _ Hrec).
  destruct (Z.ltb_spec (expiry record) (now e)); [| lia].
  split; [done |]. split; [apply lookup_delete_eq | done].
Qed.

Lemma verify_expired_witness :
  otpStorage (after_issue (sample_env 0 one_half None) "a@gmail.com" initial_world)
    !! "a@gmail.com" = Some (issued (sample_env 0 one_half None)) ∧
  expiry (issued (sample_env 0 one_half None))
    < now (sample_env 360000 one_half None) ∧
  fst (verifyOtp (sample_env 360000 one_half None) "a@gmail.com" "550000"
         (after_issue (sample_env 0 one_half None) "a@gmail.com" initial_world))
    = Throw (Error ExpiredError).
Proof.
  assert (Hrec : otpStorage (after_issue (sample_env 0 one_half None)
                               "a@gmail.com" initial_world)
                   !! "a@gmail.com" = Some (issued (sample_env 0 one_half None)))
    by apply lookup_insert_eq.
  assert (Hexp : expiry (issued (sample_env 0 one_half None))
                   < now (sample_env 360000 one_half None)) by reflexivity.
  split; [exact Hrec |]. split; [exact Hexp |].
  destruct (verify_expired (sample_env 360000 one_half None) "a@gmail.com"
              "550000" _ _ Hrec Hexp) as [-> _].
  reflexivity.
Defined.

(** ** Wrong codes *)

(** C4: when a subject has a stored record that has not expired and the
    candidate differs from the stored code, [verifyOtp] throws 'Invalid OTP.'
    and leaves the world, the record included, as it was; a later call with
    the stored code, no later than the expiry, returns [true]. *)
Theorem verify_mismatch_keeps_record (e e' : env) (email candidate : string)
    (w : world) (record : PasscodeRecord) :
  otpStorage w !! email = Some record →
  now e ≤ expiry record →
  candidate ≠ otp record →
  now e' ≤ expiry record →
  verifyOtp e email candidate w = (Throw (Error MismatchError), w) ∧
  otpStorage (snd (verifyOtp e email candidate w)) !! email = Some record ∧
  fst (verifyOtp e' email (otp record) (snd (verifyOtp e email candidate w)))
    = Return true.
Proof.
  intros Hrec Hlive Hdiff Hlive'.
  rewrite (verifyOtp_wrong_code _ _ _ _ _ Hrec Hlive Hdiff). simpl.
  split; [done |]. split; [done |].
  by rewrite (verifyOtp_right_code _ _ _ _ Hrec Hlive').
Qed.

Lemma verify_mismatch_keeps_record_witness :
  otpStorage (after_issue (sample_env 0 one_half None) "a@gmail.com" initial_world)
    !! "a@gmail.com" = Some (issued (sample_env 0 one_half None)) ∧
  now (sample_env 1000 one_half None)
    ≤ expiry (issued (sample_env 0 one_half None)) ∧
  "000000" ≠ otp (issued (sample_env 0 one_half None)) ∧
  now (sample_env 2000 one_half None)
    ≤ expiry (issued (sample_env 0 one_half None)) ∧
  verifyOtp (sample_env 1000 one_half None) "a@gmail.com" "000000"
    (after_issue (sample_env 0 one_half None) "a@gmail.com" initial_world)
  = (Throw (Error MismatchError),
     after_issue (sample_env 0 one_half None) "a@gmail.com" initial_world).
Proof.
  assert (Hrec : otpStorage (after_issue (sample_env 0 one_half None)
                               "a@gmail.com" initial_world)
                   !! "a@gmail.com" = Some (issued (sample_env 0 one_half None)))
    by apply lookup_insert_eq.
  assert (H1 : now (sample_env 1000 one_half None)
               ≤ expiry (issued (sample_env 0 one_half None)))
    by (vm_compute; discriminate).
  assert (H2 : "000000" ≠ otp (issued (sample_env 0 one_half None)))
    by (vm_compute; discriminate).
  assert (H3 : now (sample_env 2000 one_half None)
               ≤ expiry (issued (sample_env 0 one_half None)))
    by (vm_compute; discriminate).
  split; [exact Hrec |]. split; [exact H1 |]. split; [exact H2 |].
  split; [exact H3 |].
  exact (proj1 (verify_mismatch_keeps_record (sample_env 1000 one_half None)
                  (sample_env 2000 one_half None) "a@gmail.com" "000000"
                  _ _ Hrec H1 H2 H3)).
Defined.

(** ** Rejected subjects *)

(** C5: for a subject that does not end with "@gmail.com",
    [generateAndSendOtp] throws 'Only Gmail addresses are allowed.' and the
    world is the one it started from: the store has no new record and no
    request has left for the gateway. *)
Theorem issue_rejects_invalid_subject (e : env) (email : string) (w : world) :
  endsWith email "@gmail.com" = false →
  generateAndSendOtp e email w = (Throw (Error InvalidSubjectError), w) ∧
  otpStorage (snd (generateAndSendOtp e email w)) = otpStorage w ∧
  outbox (snd (generateAndSendOtp e email w)) = outbox w.
Proof.
  intros Hinvalid. by rewrite generateAndSendOtp_invalid.
Qed.

Lemma issue_rejects_invalid_subject_witness :
  endsWith "user@example.com" "@gmail.com" = false ∧
  generateAndSendOtp (sample_env 0 one_half None) "user@example.com"
    initial_world
  = (Throw (Error InvalidSubjectError), initial_world).
Proof.
  split; [reflexivity |].
  apply (issue_rejects_invalid_subject (sample_env 0 one_half None)
           "user@example.com" initial_world).
  reflexivity.
Defined.

(** ** Failed delivery *)

(** C6: for a subject the allowlist accepts, when the gateway rejects the
    request, [generateAndSendOtp] throws 'Failed to send OTP. Please try
    again.' but the record stored before the request stays in the store, and
    [verifyOtp] with the generated code, no later than the expiry, returns
    [true]. *)
Theorem failed_delivery_keeps_record (e e' : env) (email reason : string)
    (w : world) :
  endsWith email "@gmail.com" = true →
  gateway e (otp_request email (generateOtp e)) = Some reason →
  now e' ≤ now e + OTP_EXPIRY_TIME →
  let w1 := snd (generateAndSendOtp e email w) in
  fst (generateAndSendOtp e email w) = Throw (Error DeliveryError) ∧
  otpStorage w1 !! email
    = Some {| otp := generateOtp e; expiry := now e + OTP_EXPIRY_TIME |} ∧
  outbox w1 = (outbox w ++ [otp_request email (generateOtp e)])%list ∧
  fst (verifyOtp e' email (generateOtp e) w1) = Return true.
Proof.
  intros Hvalid Hfail Hlive w1. subst w1.
  rewrite generateAndSendOtp_valid by done. rewrite Hfail. simpl.
  split; [done |]. split; [apply lookup_insert_eq |]. split; [done |].
  rewrite (verifyOtp_own e' email _ (after_issue e email w) (issued e))
    by apply lookup_insert_eq.
  simpl. destruct (Z.ltb_spec (now e + OTP_EXPIRY_TIME) (now e')); [lia |].
  by rewrite String.eqb_refl.
Qed.

Lemma failed_delivery_keeps_record_witness :
  endsWith "a@gmail.com" "@gmail.com" = true ∧
  gateway (sample_env 0 one_half (Some "Network Error"))
    (otp_request "a@gmail.com"
       (generateOtp (sample_env 0 one_half (Some "Network Error"))))
    = Some "Network Error" ∧
  now (sample_env 60000 one_half None)
    ≤ now (sample_env 0 one_half (Some "Network Error")) + OTP_EXPIRY_TIME ∧
  fst (generateAndSendOtp (sample_env 0 one_half (Some "Network Error"))
         "a@gmail.com" initial_world)
    = Throw (Error DeliveryError).
Proof.
  split; [reflexivity |]. split; [reflexivity |].
  split; [vm_compute; discriminate |].
  apply (failed_delivery_keeps_record
           (sample_env 0 one_half (Some "Network Error"))
           (sample_env 60000 one_half None) "a@gmail.com" "Network Error"
           initial_world);
    [reflexivity | reflexivity | vm_compute; discriminate].
Defined.

(** ** One record per subject *)

Lemma records_for_at_most_one (email : string)
    (storage : gmap string PasscodeRecord) :
  (length (records_for email storage) ≤ 1)%nat.
Proof.
  unfold records_for.
  pose proof (NoDup_fst_map_to_list storage) as Hnodup.
  induction (map_to_list storage) as [| [k v] l IH]; simpl; [lia |].
  apply NoDup_cons in Hnodup as [Hk Hl]. specialize (IH Hl).
  rewrite filter_cons. simpl. destruct (decide (k = email)) as [-> |]; [| done].
  assert (Hnone : filter (λ kv : string * PasscodeRecord, kv.1 = email) l = []).
  { clear IH Hl. induction l as [| [k' v'] l IHl]; [done |].
    rewrite filter_cons. simpl. destruct (decide (k' = email)) as [-> |].
    - exfalso. apply Hk. simpl. left.
    - apply IHl. intros Hin. apply Hk. simpl. by right. }
  rewrite Hnone. simpl. lia.
Qed.

Lemma records_for_lookup (email : string)
    (storage : gmap string PasscodeRecord) (record : PasscodeRecord) :
  storage !! email = Some record →
  records_for email storage = [(email, record)].
Proof.
  intros Hrec.
  pose proof (records_for_at_most_one email storage) as Hlen.
  assert (Hin : (email, record) ∈ records_for email storage).
  { unfold records_for. apply list_elem_of_filter. split; [done |].
    by apply elem_of_map_to_list. }
  destruct (records_for email storage) as [| kv [| kv' l]];
    simpl in Hlen; [by apply elem_of_nil in Hin | | lia].
  apply list_elem_of_singleton in Hin. by rewrite Hin.
Qed.

(** Every key of the store was accepted by the allowlist: starting from the
    empty store, no operation creates a property under another name. *)
Lemma step_keys_accepted (w : world) (op : operation) :
  keys_accepted w → keys_accepted (step w op).
Proof.
  intros Hw key record. destruct op as [e email | e email candidate]; simpl.
  - destruct (endsWith email "@gmail.com") eqn:Hvalid.
    + rewrite generateAndSendOtp_valid by done. simpl.
      destruct (decide (email = key)) as [-> |].
      * done.
      * rewrite lookup_insert_ne by done. apply Hw.
    + rewrite generateAndSendOtp_invalid by done. apply Hw.
  - destruct (otpStorage w !! email) as [stored |] eqn:Hrec.
    + rewrite (verifyOtp_own _ _ _ _ _ Hrec).
      destruct (expiry stored <? now e); simpl.
      * intros H. apply lookup_delete_Some in H as [_ H]. by apply Hw in H.
      * destruct (negb (String.eqb (otp stored) candidate)); simpl.
        -- apply Hw.
        -- intros H. apply lookup_delete_Some in H as [_ H]. by apply Hw in H.
    + destruct (decide (email ∈ Object_prototype_keys)).
      * rewrite verifyOtp_inherited by done. apply Hw.
      * rewrite verifyOtp_undefined by done. apply Hw.
Qed.

Lemma run_keys_accepted (ops : list operation) (w : world) :
  keys_accepted w → keys_accepted (run ops w).
Proof.
  revert w. induction ops as [| op ops IH]; intros w Hw; [done |].
  simpl. apply IH. by apply step_keys_accepted.
Qed.

Lemma initial_keys_accepted : keys_accepted initial_world.
Proof. intros key record H. simpl in H. by rewrite lookup_empty in H. Qed.

(** C8: the store holds at most one record per subject after any sequence
    of operations; for a subject the allowlist accepts, a second
    [generateAndSendOtp] replaces the record of the first, so that
    [verifyOtp] with the first code, when it differs from the second, throws
    'Invalid OTP.' and [verifyOtp] with the second code, no later than its
    expiry, returns [true]. *)
Theorem reissue_replaces_record (e1 e2 e3 e4 : env) (email : string)
    (w : world) :
  endsWith email "@gmail.com" = true →
  generateOtp e1 ≠ generateOtp e2 →
  now e3 ≤ now e2 + OTP_EXPIRY_TIME →
  now e4 ≤ now e2 + OTP_EXPIRY_TIME →
  let w2 := snd (generateAndSendOtp e2 email
                   (snd (generateAndSendOtp e1 email w))) in
  (∀ ops subject,
     (length (records_for subject (otpStorage (run ops w))) ≤ 1)%nat) ∧
  otpStorage w2 !! email
    = Some {| otp := generateOtp e2; expiry := now e2 + OTP_EXPIRY_TIME |} ∧
  records_for email (otpStorage w2)
    = [(email, {| otp := generateOtp e2; expiry := now e2 + OTP_EXPIRY_TIME |})] ∧
  verifyOtp e3 email (generateOtp e1) w2 = (Throw (Error MismatchError), w2) ∧
  fst (verifyOtp e4 email (generateOtp e2)
         (snd (verifyOtp e3 email (generateOtp e1) w2))) = Return true.
Proof.
  intros Hvalid Hdiff Hlive3 Hlive4 w2. subst w2.
  rewrite !generateAndSendOtp_valid by done. simpl.
  set (w2 := after_issue e2 email (after_issue e1 email w)).
  assert (Hrec : otpStorage w2 !! email = Some (issued e2))
    by apply lookup_insert_eq.
  split; [intros; apply records_for_at_most_one |].
  split; [exact Hrec |].
  split; [exact (records_for_lookup _ _ _ Hrec) |].
  rewrite (verifyOtp_wrong_code e3 email _ w2 (issued e2) Hrec Hlive3 Hdiff).
  split; [done |].
  exact (f_equal fst (verifyOtp_right_code e4 email w2 (issued e2) Hrec Hlive4)).
Qed.

Lemma reissue_replaces_record_witness :
  endsWith "a@gmail.com" "@gmail.com" = true ∧
  generateOtp (sample_env 0 (S754_zero false) None)
    ≠ generateOtp (sample_env 1000 one_half None) ∧
  now (sample_env 2000 one_half None)
    ≤ now (sample_env 1000 one_half None) + OTP_EXPIRY_TIME ∧
  now (sample_env 3000 one_half None)
    ≤ now (sample_env 1000 one_half None) + OTP_EXPIRY_TIME ∧
  fst (verifyOtp (sample_env 2000 one_half None) "a@gmail.com" "100000"
         (snd (generateAndSendOtp (sample_env 1000 one_half None) "a@gmail.com"
                 (snd (generateAndSendOtp (sample_env 0 (S754_zero false) None)
                         "a@gmail.com" initial_world)))))
    = Throw (Error MismatchError).
Proof.
  assert (H1 : endsWith "a@gmail.com" "@gmail.com" = true) by reflexivity.
  assert (H2 : generateOtp (sample_env 0 (S754_zero false) None)
               ≠ generateOtp (sample_env 1000 one_half None))
    by (vm_compute; discriminate).
  assert (H3 : now (sample_env 2000 one_half None)
               ≤ now (sample_env 1000 one_half None) + OTP_EXPIRY_TIME)
    by (vm_compute; discriminate).
  assert (H4 : now (sample_env 3000 one_half None)
               ≤ now (sample_env 1000 one_half None) + OTP_EXPIRY_TIME)
    by (vm_compute; discriminate).
  split; [exact H1 |]. split; [exact H2 |]. split; [exact H3 |].
  split; [exact H4 |].
  destruct (reissue_replaces_record (sample_env 0 (S754_zero false) None)
              (sample_env 1000 one_half None) (sample_env 2000 one_half None)
              (sample_env 3000 one_half None) "a@gmail.com" initial_world
              H1 H2 H3 H4) as (_ & _ & _ & Hfirst & _).
  exact (f_equal fst Hfirst).
Defined.

(** ** The endpoint *)

Lemma generateAndSendOtp_calls (e : env) (email : string) (w : world) :
  calls (snd (generateAndSendOtp e email w)) = calls w.
Proof.
  destruct (endsWith email "@gmail.com") eqn:Hvalid.
  - by rewrite generateAndSendOtp_valid.
  - by rewrite generateAndSendOtp_invalid.
Qed.

(** The world [generateAndSendOtp] leaves does not depend on the log of
    calls, which it carries along. *)
Lemma generateAndSendOtp_logged (e : env) (email : string) (w : world)
    (log : list service_call) :
  generateAndSendOtp e email
    {| otpStorage := otpStorage w; outbox := outbox w; calls := log |}
  = (fst (generateAndSendOtp e email w),
     {| otpStorage := otpStorage (snd (generateAndSendOtp e email w));
        outbox := outbox (snd (generateAndSendOtp e email w));
        calls := log |}).
Proof.
  destruct (endsWith email "@gmail.com") eqn:Hvalid.
  - by rewrite !generateAndSendOtp_valid.
  - by rewrite !generateAndSendOtp_invalid.
Qed.

Lemma generateAndSendOtp_any_logged (e : env) (email : value) (w : world)
    (log : list service_call) :
  generateAndSendOtp_any e email
    {| otpStorage := otpStorage w; outbox := outbox w; calls := log |}
  = (fst (generateAndSendOtp_any e email w),
     {| otpStorage := otpStorage (snd (generateAndSendOtp_any e email w));
        outbox := outbox (snd (generateAndSendOtp_any e email w));
        calls := log |}).
Proof.
  destruct email; try reflexivity. apply generateAndSendOtp_logged.
Qed.

(** The falsy values of a field: [undefined], [null], [false], the two
    zeros, NaN and the empty string, and no others. *)
Lemma truthy_false_iff (field : option value) :
  truthy field = false ↔
  field = None ∨ field = Some VNull ∨ field = Some (VBool false) ∨
  (∃ sign, field = Some (VNumber (S754_zero sign))) ∨
  field = Some (VNumber S754_nan) ∨ field = Some (VString "").
Proof.
  split.
  - destruct field as [[| [] | [sign | sign | | sign m ex] | s | items | members] |];
      simpl; try discriminate; eauto 7.
    destruct (String.eqb_spec s ""); [subst; eauto 7 | discriminate].
  - intros [-> | [-> | [-> | [[sign ->] | [-> | ->]]]]]; reflexivity.
Qed.

(** C9: for a request whose method is not POST the handler answers 405 with
    the header [Allow] set to the one method POST, and the world is the one
    it started from: neither [generateAndSendOtp] nor [verifyOtp] was
    called, nothing was stored and nothing was sent. *)
Theorem handler_rejects_other_methods (e : env) (req : request) (w : world) :
  method req ≠ "POST" →
  handler e req w
    = (Return {| status := 405;
                 headers := [("Allow", ["POST"])];
                 payload := JError ("Method " ++ method req ++ " not allowed.") |},
       w) ∧
  calls (snd (handler e req w)) = calls w.
Proof.
  intros Hmethod. unfold handler, try_catch.
  destruct (String.eqb_spec (method req) "POST"); [done |].
  done.
Qed.

Lemma handler_rejects_other_methods_witness :
  "GET" ≠ "POST" ∧
  fst (handler (sample_env 0 one_half None)
         {| method := "GET";
            body := Some (VObject [("email", VString "a@gmail.com")]) |}
         initial_world)
  = Return {| status := 405;
              headers := [("Allow", ["POST"])];
              payload := JError "Method GET not allowed." |}.
Proof.
  assert (H : "GET" ≠ "POST") by discriminate.
  split; [exact H |].
  exact (f_equal fst
           (proj1 (handler_rejects_other_methods (sample_env 0 one_half None)
                     {| method := "GET";
                        body := Some (VObject [("email", VString "a@gmail.com")]) |}
                     initial_world H))).
Defined.

(** C10: for a POST request whose body has a truthy [email] and whose [otp]
    is absent or falsy ([undefined], [null], [false], a zero, NaN or the
    empty string), the handler calls [generateAndSendOtp] with that email
    and never [verifyOtp]: the log grows by that one call, the store and the
    outbox are those the call leaves, which for an email that is a string
    are those of [generateAndSendOtp] on that string, and the answer is 200
    when the call returns and 500 with the message of the error when it
    throws. *)
Theorem handler_falsy_otp_issues (e : env) (req : request) (w : world)
    (b email : value) :
  method req = "POST" →
  body req = Some b →
  get_member "email" b = Some email →
  truthy (Some email) = true →
  truthy (get_member "otp" b) = false →
  let issue := generateAndSendOtp_any e email w in
  calls (snd (handler e req w))
    = (calls w ++ [CalledGenerateAndSendOtp email])%list ∧
  (∀ subject candidate,
     CalledVerifyOtp subject candidate ∈ calls (snd (handler e req w)) →
     CalledVerifyOtp subject candidate ∈ calls w) ∧
  otpStorage (snd (handler e req w)) = otpStorage (snd issue) ∧
  outbox (snd (handler e req w)) = outbox (snd issue) ∧
  (∀ s, email = VString s → issue = generateAndSendOtp e s w) ∧
  fst (handler e req w)
    = Return (match fst issue with
              | Return _ => {| status := 200; headers := [];
                               payload := JMessage "OTP sent successfully." |}
              | Throw error => {| status := 500; headers := [];
                                  payload := JError (message_of error) |}
              end).
Proof.
  intros Hmethod Hbody Hemail Htruthy Hfalsy issue. subst issue.
  destruct b as [| flag | x | s | items | members]; try discriminate.
  simpl in Hemail, Hfalsy.
  assert (Hlog : ∀ subject candidate,
             CalledVerifyOtp subject candidate
               ∈ (calls w ++ [CalledGenerateAndSendOtp email])%list →
             CalledVerifyOtp subject candidate ∈ calls w).
  { intros subject candidate Hin.
    apply elem_of_app in Hin as [Hin | Hin]; [done |].
    apply list_elem_of_singleton in Hin. discriminate. }
  assert (Hstring : ∀ s, email = VString s →
             generateAndSendOtp_any e email w = generateAndSendOtp e s w).
  { by intros s ->. }
  unfold handler, try_catch. rewrite Hmethod, Hbody. simpl String.eqb.
  cbv iota beta zeta. unfold get_member. rewrite Hemail, Htruthy.
  destruct (lookup_member "otp" members) as [candidate |];
    [rewrite Hfalsy |];
    unfold mbind, M_bind, bind, record_call; simpl;
    rewrite generateAndSendOtp_any_logged;
    destruct (fst (generateAndSendOtp_any e email w)) as [[] | error]; simpl;
    by repeat split.
Qed.

Lemma handler_falsy_otp_issues_witness :
  method {| method := "POST";
            body := Some (VObject [("email", VString "a@gmail.com");
                                   ("otp", VString "")]) |} = "POST" ∧
  truthy (Some (VString "a@gmail.com")) = true ∧
  truthy (get_member "otp" (VObject [("email", VString "a@gmail.com");
                                     ("otp", VString "")])) = false ∧
  calls (snd (handler (sample_env 0 one_half None)
                {| method := "POST";
                   body := Some (VObject [("email", VString "a@gmail.com");
                                          ("otp", VString "")]) |}
                initial_world))
  = [CalledGenerateAndSendOtp (VString "a@gmail.com")].
Proof.
  split; [reflexivity |]. split; [reflexivity |]. split; [reflexivity |].
  exact (proj1 (handler_falsy_otp_issues (sample_env 0 one_half None)
                  {| method := "POST";
                     body := Some (VObject [("email", VString "a@gmail.com");
                                            ("otp", VString "")]) |}
                  initial_world
                  (VObject [("email", VString "a@gmail.com");
                            ("otp", VString "")])
                  (VString "a@gmail.com")
                  eq_refl eq_refl eq_refl eq_refl eq_refl)).
Defined.

(** ** The generated code *)

(** *** Shifting and rounding in [SpecFloat] *)

Lemma shr_1_nonneg m r s :
  0 <= m ->
  shr_1 {| shr_m := m; shr_r := r; shr_s := s |}
  = {| shr_m := m / 2; shr_r := Z.odd m; shr_s := r || s |}.
Proof.
  intros Hm. destruct m as [| p | p]; [done | | lia].
  destruct p as [p | p |]; simpl.
  - f_equal. rewrite Pos2Z.inj_xI. apply (Z.div_unique _ _ _ 1); lia.
  - f_equal. rewrite Pos2Z.inj_xO. apply (Z.div_unique _ _ _ 0); lia.
  - done.
Qed.

Lemma iter_pos_iter {A} (f : A -> A) p x : SpecFloat.iter_pos f p x = Pos.iter f x p.
Proof.
  revert x. induction p as [p IH | p IH |]; intros x; simpl.
  - rewrite !IH. by rewrite <- !Pos.iter_swap.
  - by rewrite !IH.
  - done.
Qed.

Lemma shifted_first M :
  0 <= M -> shifted M 1 (shr_1 {| shr_m := M; shr_r := false; shr_s := false |}).
Proof.
  intros HM. rewrite shr_1_nonneg by done. exists 0. simpl.
  split; [lia |]. split.
  - rewrite (Z.div_mod M 2) at 1 by lia. rewrite Zmod_odd.
    destruct (Z.odd M); simpl; lia.
  - split; [done |]. apply Z.div_pos; lia.
Qed.

Lemma shifted_next M k mrs :
  1 <= k -> shifted M k mrs -> shifted M (k + 1) (shr_1 mrs).
Proof.
  intros Hk (rest & Hrest & HM & Hs & Hm).
  destruct mrs as [m r s]. rewrite shr_1_nonneg by done. simpl in *.
  exists (Z.b2z r * 2 ^ (k - 1) + rest). simpl.
  replace (k + 1 - 1) with k by lia.
  assert (Hpow : 2 ^ k = 2 * 2 ^ (k - 1)).
  { rewrite <- Z.pow_succ_r by lia. f_equal. lia. }
  assert (Hpow' : 2 ^ (k + 1) = 2 * 2 ^ k) by (rewrite Z.pow_add_r; lia).
  assert (Hpos : 0 < 2 ^ (k - 1)) by (apply Z.pow_pos_nonneg; lia).
  split; [destruct r; simpl; lia |]. split.
  - rewrite HM. rewrite (Z.div_mod m 2) at 1 by lia. rewrite Zmod_odd.
    rewrite Hpow'. destruct (Z.odd m); simpl; lia.
  - split; [| apply Z.div_pos; lia].
    rewrite Hs. destruct r; simpl Z.b2z; simpl orb.
    + destruct (Z.eqb_spec (1 * 2 ^ (k - 1) + rest) 0); [lia | done].
    + by replace (0 * 2 ^ (k - 1) + rest) with rest by lia.
Qed.

Lemma shifted_iter M p :
  0 <= M ->
  shifted M (Z.pos p)
    (SpecFloat.iter_pos shr_1 p {| shr_m := M; shr_r := false; shr_s := false |}).
Proof.
  intros HM. rewrite iter_pos_iter.
  induction p as [| p IH] using Pos.peano_ind.
  - simpl. by apply shifted_first.
  - rewrite Pos.iter_succ. rewrite Pos2Z.inj_succ.
    apply shifted_next; [lia | done].
Qed.

Lemma pow2_split (n : Z) : 1 <= n -> 2 ^ n = 2 * 2 ^ (n - 1).
Proof. intros Hn. rewrite <- Z.pow_succ_r by lia. f_equal. lia. Qed.

Lemma shifted_div_mod M n mrs :
  1 <= n -> shifted M n mrs ->
  M / 2 ^ n = shr_m mrs ∧
  M mod 2 ^ n = Z.b2z (shr_r mrs) * 2 ^ (n - 1)
                + (M mod 2 ^ n - Z.b2z (shr_r mrs) * 2 ^ (n - 1)) ∧
  ∃ rest, 0 <= rest < 2 ^ (n - 1) ∧
          M mod 2 ^ n = Z.b2z (shr_r mrs) * 2 ^ (n - 1) + rest ∧
          shr_s mrs = negb (rest =? 0).
Proof.
  intros Hn (rest & Hrest & HM & Hs & Hm).
  pose proof (pow2_split n Hn) as Hpow.
  assert (Hlt : 0 <= Z.b2z (shr_r mrs) * 2 ^ (n - 1) + rest < 2 ^ n)
    by (destruct (shr_r mrs); simpl; lia).
  assert (Hq : M / 2 ^ n = shr_m mrs).
  { symmetry. apply (Z.div_unique_pos _ _ _ _ Hlt). lia. }
  assert (Hr : M mod 2 ^ n = Z.b2z (shr_r mrs) * 2 ^ (n - 1) + rest).
  { symmetry. apply (Z.mod_unique_pos _ _ (shr_m mrs) _ Hlt). lia. }
  split; [done |]. split; [lia |]. by exists rest.
Qed.

Lemma round_shifted M n mrs :
  1 <= n -> shifted M n mrs ->
  round_nearest_even (shr_m mrs) (loc_of_shr_record mrs) = rne M n.
Proof.
  intros Hn Hsh.
  destruct (shifted_div_mod M n mrs Hn Hsh) as (Hq & _ & rest & Hrest & Hr & Hs).
  pose proof (pow2_split n Hn) as Hpow.
  unfold rne. rewrite Hq, Hr.
  destruct mrs as [m r s]. simpl in *. subst s.
  destruct r; simpl Z.b2z.
  - destruct (Z.eqb_spec rest 0) as [Heq | Hne]; simpl.
    + replace (2 * (1 * 2 ^ (n - 1) + rest)) with (2 ^ n) by lia.
      by rewrite Z.compare_refl.
    + assert (Hgt : 2 ^ n < 2 * (1 * 2 ^ (n - 1) + rest)) by lia.
      by rewrite (proj2 (Z.compare_gt_iff _ _) Hgt).
  - assert (Hlt : 2 * (0 * 2 ^ (n - 1) + rest) < 2 ^ n) by lia.
    rewrite (proj2 (Z.compare_lt_iff _ _) Hlt).
    by destruct (rest =? 0).
Qed.

Lemma rne_bounds V t : V / 2 ^ t <= rne V t <= V / 2 ^ t + 1.
Proof.
  unfold rne. destruct (2 * (V mod 2 ^ t) ?= 2 ^ t); [| lia | lia].
  destruct (Z.even (V / 2 ^ t)); lia.
Qed.

Lemma rne_exact k t : 0 <= t -> rne (k * 2 ^ t) t = k.
Proof.
  intros Ht. assert (Hpos : 0 < 2 ^ t) by (apply Z.pow_pos_nonneg; lia).
  unfold rne. rewrite Z.div_mul by lia. rewrite Z.mod_mul by lia.
  by rewrite (proj2 (Z.compare_lt_iff _ _)) by lia.
Qed.

Lemma rne_scale M n k : 0 <= n -> 0 <= k -> rne (M * 2 ^ k) (n + k) = rne M n.
Proof.
  intros Hn Hk.
  assert (Hn' : 0 < 2 ^ n) by (apply Z.pow_pos_nonneg; lia).
  assert (Hk' : 0 < 2 ^ k) by (apply Z.pow_pos_nonneg; lia).
  unfold rne. rewrite Z.pow_add_r by lia.
  rewrite Z.div_mul_cancel_r by lia.
  rewrite Z.mul_mod_distr_r by lia.
  rewrite Z.mul_assoc. by rewrite <- Zmult_compare_compat_r by lia.
Qed.

Lemma rne_mono V1 V2 t : 0 <= t -> V1 <= V2 -> rne V1 t <= rne V2 t.
Proof.
  intros Ht Hle.
  assert (Hpos : 0 < 2 ^ t) by (apply Z.pow_pos_nonneg; lia).
  pose proof (Z.div_le_mono V1 V2 (2 ^ t) Hpos Hle) as Hq.
  destruct (Z.eq_dec (V1 / 2 ^ t) (V2 / 2 ^ t)) as [Heq | Hne].
  - pose proof (Z.div_mod V1 (2 ^ t)) as H1.
    pose proof (Z.div_mod V2 (2 ^ t)) as H2.
    assert (Hr : V1 mod 2 ^ t <= V2 mod 2 ^ t) by (rewrite Heq in H1; lia).
    unfold rne. rewrite Heq.
    destruct (Z.compare_spec (2 * (V1 mod 2 ^ t)) (2 ^ t));
      destruct (Z.compare_spec (2 * (V2 mod 2 ^ t)) (2 ^ t));
      destruct (Z.even (V2 / 2 ^ t)); lia.
  - pose proof (rne_bounds V1 t). pose proof (rne_bounds V2 t). lia.
Qed.

Lemma round53_mono V1 V2 : 0 < V1 -> V1 <= V2 -> round53 V1 <= round53 V2.
Proof.
  intros Hpos Hle. unfold round53.
  pose proof (Z.log2_le_mono V1 V2 Hle) as Hlog.
  pose proof (Z.log2_nonneg V1) as Hnn.
  destruct (Z.eq_dec (Z.max (Z.log2 V1 - 52) 33) (Z.max (Z.log2 V2 - 52) 33))
    as [Heq | Hne].
  - rewrite Heq. apply Z.mul_le_mono_nonneg_r.
    + apply Z.pow_nonneg. lia.
    + apply rne_mono; lia.
  - set (t1 := Z.max (Z.log2 V1 - 52) 33) in *.
    set (t2 := Z.max (Z.log2 V2 - 52) 33) in *.
    set (D := Z.log2 V2) in *.
    assert (Ht : t1 < t2 ∧ t2 = D - 52 ∧ Z.log2 V1 < D) by lia.
    destruct Ht as (Ht & Ht2 & Hlt).
    assert (HV1 : V1 < 2 ^ D).
    { apply Z.log2_lt_pow2; lia. }
    assert (HV2 : 2 ^ D <= V2).
    { apply Z.log2_spec. lia. }
    assert (Hmid1 : rne V1 t1 * 2 ^ t1 <= 2 ^ D).
    { replace (2 ^ D) with (2 ^ (D - t1) * 2 ^ t1)
        by (rewrite <- Z.pow_add_r by lia; f_equal; lia).
      apply Z.mul_le_mono_nonneg_r; [apply Z.pow_nonneg; lia |].
      rewrite <- (rne_exact (2 ^ (D - t1)) t1) by lia.
      apply rne_mono; [lia |].
      rewrite <- Z.pow_add_r by lia. replace (D - t1 + t1) with D by lia. lia. }
    assert (Hmid2 : 2 ^ D <= rne V2 t2 * 2 ^ t2).
    { replace (2 ^ D) with (2 ^ (D - t2) * 2 ^ t2)
        by (rewrite <- Z.pow_add_r by lia; f_equal; lia).
      apply Z.mul_le_mono_nonneg_r; [apply Z.pow_nonneg; lia |].
      rewrite <- (rne_exact (2 ^ (D - t2)) t2) at 1 by lia.
      apply rne_mono; [lia |].
      rewrite <- Z.pow_add_r by lia. replace (D - t2 + t2) with D by lia. lia. }
    lia.
Qed.

Lemma digits2_pos_size p : digits2_pos p = Pos.size p.
Proof. induction p; simpl; congruence. Qed.

Lemma Zdigits2_log2 m : 0 < m -> Zdigits2 m = Z.log2 m + 1.
Proof.
  intros Hm. destruct m as [| p | p]; [lia | | lia]. simpl.
  rewrite digits2_pos_size. destruct p; simpl; lia.
Qed.

Lemma fexp_eq e : fexp 53 1024 e = Z.max (e - 53) (-1074).
Proof. reflexivity. Qed.

Lemma shr_fexp_no_shift m E :
  fexp 53 1024 (Zdigits2 m + E) <= E ->
  shr_fexp 53 1024 m E loc_Exact
  = ({| shr_m := m; shr_r := false; shr_s := false |}, E).
Proof.
  intros Hle. unfold shr_fexp, shr. simpl shr_record_of_loc.
  destruct (fexp 53 1024 (Zdigits2 m + E) - E) eqn:Hn; [done | lia | done].
Qed.

Lemma shr_fexp_shift m E :
  0 <= m ->
  E < fexp 53 1024 (Zdigits2 m + E) ->
  ∃ mrs,
    shr_fexp 53 1024 m E loc_Exact = (mrs, fexp 53 1024 (Zdigits2 m + E)) ∧
    shifted m (fexp 53 1024 (Zdigits2 m + E) - E) mrs.
Proof.
  intros Hm Hlt. unfold shr_fexp, shr. simpl shr_record_of_loc.
  destruct (fexp 53 1024 (Zdigits2 m + E) - E) as [| n | n] eqn:Hn;
    [lia | | lia].
  eexists. split.
  - f_equal. lia.
  - by apply shifted_iter.
Qed.

Lemma shr_fexp_carry fe :
  -1074 <= fe ->
  shr_fexp 53 1024 (2 ^ 53) fe loc_Exact
  = ({| shr_m := 2 ^ 52; shr_r := false; shr_s := false |}, fe + 1).
Proof.
  intros Hfe. unfold shr_fexp.
  change (Zdigits2 (2 ^ 53)) with 54. rewrite fexp_eq.
  replace (Z.max (54 + fe - 53) (-1074) - fe) with 1 by lia.
  reflexivity.
Qed.

Lemma binary_round_aux_scaled p E :
  - scale <= E -> Z.log2 (Z.pos p * 2 ^ (E + scale)) <= 2000 ->
  nonneg_finite (binary_round_aux 53 1024 false (Z.pos p) E loc_Exact) ∧
  scaled (binary_round_aux 53 1024 false (Z.pos p) E loc_Exact)
    = round53 (Z.pos p * 2 ^ (E + scale)).
Proof.
  intros HE Hbig. unfold scale in HE.
  set (M := Z.pos p) in *. assert (HM : 0 < M) by (unfold M; lia).
  pose proof (Z.log2_nonneg M) as HlogM.
  assert (HlogV : Z.log2 (M * 2 ^ (E + scale)) = Z.log2 M + (E + scale)).
  { rewrite Z.log2_mul_pow2; unfold scale; lia. }
  rewrite HlogV in Hbig. unfold scale in Hbig.
  set (fe := fexp 53 1024 (Zdigits2 M + E)).
  assert (Hfe : fe = Z.max (Z.log2 M + E - 52) (-1074)).
  { unfold fe. rewrite fexp_eq, Zdigits2_log2 by done. lia. }
  assert (Ht : Z.max (Z.log2 (M * 2 ^ (E + scale)) - 52) 33 = fe + scale).
  { unfold scale in *. lia. }
  unfold round53. rewrite Ht. unfold binary_round_aux.
  destruct (Z_le_gt_dec fe E) as [Hns | Hs].
  - rewrite shr_fexp_no_shift by done.
    simpl shr_m. simpl loc_of_shr_record. simpl round_nearest_even.
    rewrite shr_fexp_no_shift by done. simpl shr_m. unfold M at 1 2.
    destruct (Z.leb_spec E (1024 - 53)); [| lia].
    split; [simpl; lia |]. simpl scaled. fold M.
    replace (M * 2 ^ (E + scale)) with (M * 2 ^ (E - fe) * 2 ^ (fe + scale)).
    + rewrite rne_exact by (unfold scale; lia). done.
    + rewrite <- Z.mul_assoc, <- Z.pow_add_r by (unfold scale; lia).
      do 2 f_equal. lia.
  - destruct (shr_fexp_shift M E) as (mrs & Heq & Hsh); [lia | fold fe; lia |].
    fold fe in Heq, Hsh. rewrite Heq.
    rewrite (round_shifted M (fe - E) mrs) by (done || lia).
    assert (Hrne : rne (M * 2 ^ (E + scale)) (fe + scale) = rne M (fe - E)).
    { replace (fe + scale) with (fe - E + (E + scale)) by lia.
      apply rne_scale; unfold scale; lia. }
    rewrite Hrne. set (m1 := rne M (fe - E)).
    assert (Hm1 : 0 <= m1 <= 2 ^ 53).
    { pose proof (rne_bounds M (fe - E)) as Hb. fold m1 in Hb.
      assert (Hpos : 0 < 2 ^ (fe - E)) by (apply Z.pow_pos_nonneg; lia).
      assert (0 <= M / 2 ^ (fe - E)) by (apply Z.div_pos; lia).
      assert (M / 2 ^ (fe - E) < 2 ^ 53).
      { apply Z.div_lt_upper_bound; [lia |].
        rewrite <- Z.pow_add_r by lia.
        apply Z.log2_lt_pow2; lia. }
      lia. }
    destruct (Z.eq_dec m1 (2 ^ 53)) as [Hcarry | Hnocarry].
    + rewrite Hcarry. rewrite shr_fexp_carry by lia. simpl shr_m.
      change (2 ^ 52) with (Z.pos 4503599627370496).
      cbv iota beta.
      destruct (Z.leb_spec (fe + 1) (1024 - 53)); [| lia].
      split; [simpl; lia |]. simpl scaled.
      replace (fe + 1 + scale) with (1 + (fe + scale)) by lia.
      rewrite Z.pow_add_r by (unfold scale; lia). lia.
    + rewrite shr_fexp_no_shift.
      * simpl shr_m. destruct m1 as [| q | q] eqn:Hq; [done | | lia].
        destruct (Z.leb_spec fe (1024 - 53)); [| lia].
        split; [simpl; lia | done].
      * rewrite fexp_eq. destruct (Z.eq_dec m1 0) as [-> | Hnz]; [simpl; lia |].
        rewrite Zdigits2_log2 by lia.
        assert (Z.log2 m1 < 53) by (apply Z.log2_lt_pow2; lia). lia.
Qed.

Lemma iter_xO_pow2 m d : Z.pos (Pos.iter xO m d) = Z.pos m * 2 ^ Z.pos d.
Proof.
  induction d as [| d IH] using Pos.peano_ind.
  - simpl. lia.
  - rewrite Pos.iter_succ, Pos2Z.inj_xO, IH, Pos2Z.inj_succ.
    rewrite Z.pow_succ_r by lia. lia.
Qed.

Lemma shl_align_scaled m e e' k :
  0 <= Z.min e e' + k ->
  snd (shl_align m e e') = Z.min e e' ∧
  Z.pos (fst (shl_align m e e')) * 2 ^ (Z.min e e' + k) = Z.pos m * 2 ^ (e + k).
Proof.
  intros Hk. unfold shl_align.
  destruct (e' - e) as [| d | d] eqn:Hd; simpl.
  - split; [lia |]. do 2 f_equal. lia.
  - split; [lia |]. do 2 f_equal. lia.
  - split; [lia |]. rewrite iter_xO_pow2.
    rewrite <- Z.mul_assoc, <- Z.pow_add_r by lia. do 2 f_equal. lia.
Qed.

Lemma binary_round_scaled m e :
  - scale <= e -> Z.log2 (Z.pos m * 2 ^ (e + scale)) <= 2000 ->
  nonneg_finite (binary_round 53 1024 false m e) ∧
  scaled (binary_round 53 1024 false m e) = round53 (Z.pos m * 2 ^ (e + scale)).
Proof.
  intros He Hbig. unfold binary_round.
  set (e' := fexp 53 1024 (Z.pos (digits2_pos m) + e)).
  assert (He' : -1074 <= e') by (unfold e'; rewrite fexp_eq; lia).
  destruct (shl_align_scaled m e e' scale) as [Hsnd Hval];
    [unfold scale in *; lia |].
  destruct (shl_align m e e') as [mz ez]. simpl in Hsnd, Hval. subst ez.
  rewrite <- Hval in *.
  apply binary_round_aux_scaled; [unfold scale in *; lia | done].
Qed.

Lemma mul_scaled m1 e1 m2 e2 :
  - scale <= e1 + e2 ->
  Z.log2 (Z.pos m1 * Z.pos m2 * 2 ^ (e1 + e2 + scale)) <= 2000 ->
  let x := Number.mul (S754_finite false m1 e1) (S754_finite false m2 e2) in
  nonneg_finite x ∧ scaled x = round53 (Z.pos m1 * Z.pos m2 * 2 ^ (e1 + e2 + scale)).
Proof.
  intros He Hbig x. subst x. unfold Number.mul, SFmul. simpl xorb.
  rewrite Pos2Z.inj_mul.
  by apply (binary_round_aux_scaled (m1 * m2) (e1 + e2)).
Qed.

Lemma add_scaled m1 e1 m2 e2 :
  - scale <= e1 -> - scale <= e2 ->
  Z.log2 (Z.pos m1 * 2 ^ (e1 + scale) + Z.pos m2 * 2 ^ (e2 + scale)) <= 2000 ->
  let x := Number.add (S754_finite false m1 e1) (S754_finite false m2 e2) in
  nonneg_finite x ∧
  scaled x = round53 (Z.pos m1 * 2 ^ (e1 + scale) + Z.pos m2 * 2 ^ (e2 + scale)).
Proof.
  intros He1 He2 Hbig x. subst x. unfold Number.add, SFadd. simpl cond_Zopp.
  set (ez := Z.min e1 e2).
  destruct (shl_align_scaled m1 e1 ez scale) as [_ H1]; [unfold scale in *; lia |].
  destruct (shl_align_scaled m2 e2 ez scale) as [_ H2]; [unfold scale in *; lia |].
  replace (Z.min e1 ez) with ez in H1 by lia.
  replace (Z.min e2 ez) with ez in H2 by lia.
  rewrite <- H1, <- H2 in *. rewrite <- Z.mul_add_distr_r in *.
  rewrite <- Pos2Z.inj_add in *. unfold binary_normalize.
  apply binary_round_scaled; [unfold scale in *; lia | done].
Qed.

Lemma Math_floor_scaled x :
  nonneg_finite x -> Number.Math_floor x = Number.IInt (scaled x / 2 ^ scale).
Proof.
  destruct x as [[] | | | [] m e]; try done. simpl. intros He. f_equal.
  destruct e as [| p | p].
  - rewrite Z.div_mul; [lia | unfold scale; lia].
  - rewrite Z.pow_add_r by (unfold scale; lia).
    rewrite Z.mul_assoc. rewrite Z.div_mul; [done | unfold scale; lia].
  - replace (2 ^ scale) with (2 ^ Z.pos p * 2 ^ (Z.neg p + scale)).
    + rewrite Z.div_mul_cancel_r; [done | lia |].
      apply Z.pow_nonzero; unfold scale; lia.
    + rewrite <- Z.pow_add_r by (unfold scale; lia). f_equal. lia.
Qed.

(** *** The range of the draw *)

Lemma of_Z_1 : Number.of_Z 1 = S754_finite false 4503599627370496 (-52).
Proof. vm_compute. reflexivity. Qed.

Lemma in_unit_interval_inv r :
  in_unit_interval r = true ->
  (∃ s, r = S754_zero s) ∨
  (∃ m e, r = S754_finite false m e ∧ -1074 <= e <= -53 ∧ Z.pos m < 2 ^ 53).
Proof.
  unfold in_unit_interval. rewrite of_Z_1. intros H.
  apply andb_true_iff in H as [H Hlt]. apply andb_true_iff in H as [Hvalid Hle].
  destruct r as [s | s | | s m e].
  - left. by exists s.
  - destruct s; discriminate.
  - discriminate.
  - right. exists m, e.
    destruct s; [discriminate |]. split; [reflexivity |].
    unfold valid_binary, bounded, canonical_mantissa in Hvalid.
    apply andb_true_iff in Hvalid as [Hcanon _].
    apply Z.eqb_eq in Hcanon. rewrite fexp_eq in Hcanon.
    pose proof (Zdigits2_log2 (Z.pos m) ltac:(lia)) as Hd.
    change (Zdigits2 (Z.pos m)) with (Z.pos (digits2_pos m)) in Hd.
    rewrite Hd in Hcanon.
    assert (Hm : Z.pos m < 2 ^ 53).
    { apply Z.log2_lt_pow2; lia. }
    split; [| exact Hm].
    unfold SFltb, SFcompare in Hlt.
    destruct (Z.compare_spec e (-52)) as [-> | Hlt' | Hgt]; [| lia | discriminate].
    destruct (Pos.compare_cont Eq m 4503599627370496) eqn:Hc; try discriminate.
    pose proof (Pos2Z.pos_lt_pos _ _ (proj1 (Pos.compare_lt_iff m 4503599627370496) Hc))
      as Hlt52.
    clear Hc Hlt.
    assert (Z.log2 (Z.pos m) < 52) by (apply Z.log2_lt_pow2; lia).
    lia.
Qed.

Lemma of_Z_100000 :
  Number.of_Z 100000 = S754_finite false 6871947673600000 (-36).
Proof. vm_compute. reflexivity. Qed.

Lemma of_Z_900000 :
  Number.of_Z 900000 = S754_finite false 7730941132800000 (-33).
Proof. vm_compute. reflexivity. Qed.

Lemma round53_product_top : round53 product_top = 7730941132799999 * 2 ^ 1074.
Proof. vm_compute. reflexivity. Qed.

Lemma round53_hundred_thousand : round53 hundred_thousand = hundred_thousand.
Proof. vm_compute. reflexivity. Qed.

Lemma round53_sum_top : round53 sum_top = 8589934591999999 * 2 ^ 1074.
Proof. vm_compute. reflexivity. Qed.

Lemma log2_below (V top : Z) : 0 < V -> V <= top -> top < 2 ^ 2001 -> Z.log2 V <= 2000.
Proof.
  intros Hpos Hle Htop.
  assert (Z.log2 V < 2001) by (apply Z.log2_lt_pow2; lia). lia.
Qed.

Lemma product_top_small : product_top < 2 ^ 2001.
Proof. vm_compute. reflexivity. Qed.

Lemma sum_top_small : sum_top < 2 ^ 2001.
Proof. vm_compute. reflexivity. Qed.

Lemma hundred_thousand_eq : hundred_thousand = 100000 * 2 ^ scale.
Proof. vm_compute. reflexivity. Qed.

Lemma sum_top_round_lt : 8589934591999999 * 2 ^ 1074 < 2 ^ scale * 1000000.
Proof. vm_compute. reflexivity. Qed.

Lemma floor_of_hundred_thousand :
  Number.Math_floor (S754_finite false 6871947673600000 (-36)) = Number.IInt 100000.
Proof. vm_compute. reflexivity. Qed.

Lemma product_le_top m e :
  Z.pos m < 2 ^ 53 -> -1074 <= e <= -53 ->
  0 < Z.pos m * 7730941132800000 * 2 ^ (e + -33 + scale) <= product_top.
Proof.
  intros Hm He. unfold product_top, scale.
  assert (Hpow : 0 < 2 ^ (e + -33 + 1107)) by (apply Z.pow_pos_nonneg; lia).
  assert (Hmono : 2 ^ (e + -33 + 1107) <= 2 ^ 1021)
    by (apply Z.pow_le_mono_r; lia).
  set (P := 2 ^ (e + -33 + 1107)) in *. set (Q := 2 ^ 1021) in *.
  split; [lia |].
  apply Z.mul_le_mono_nonneg; lia.
Qed.

Lemma sum_floor_range (x : spec_float) :
  nonneg_finite x ->
  scaled x <= 7730941132799999 * 2 ^ 1074 ->
  ∃ n, Number.Math_floor (Number.add (S754_finite false 6871947673600000 (-36)) x)
       = Number.IInt n ∧ 100000 <= n <= 999999.
Proof.
  intros Hnn Htop.
  destruct x as [[] | | | [] mx ex]; try done.
  - exists 100000. split; [apply floor_of_hundred_thousand | lia].
  - simpl in Hnn. simpl scaled in Htop.
    assert (Hx : 0 < Z.pos mx * 2 ^ (ex + scale)).
    { apply Z.mul_pos_pos; [lia |]. apply Z.pow_pos_nonneg; unfold scale; lia. }
    assert (Hc : 0 < hundred_thousand) by (vm_compute; reflexivity).
    assert (Hsum : 0 < hundred_thousand + Z.pos mx * 2 ^ (ex + scale) <= sum_top).
    { unfold sum_top. lia. }
    destruct (add_scaled 6871947673600000 (-36) mx ex) as [Hnn' Hval].
    + unfold scale. lia.
    + unfold scale. lia.
    + apply (log2_below _ sum_top); [apply Hsum | apply Hsum | apply sum_top_small].
    + fold hundred_thousand in Hval.
      rewrite (Math_floor_scaled _ Hnn'). rewrite Hval.
      eexists. split; [reflexivity |].
      assert (Hlow : hundred_thousand
                     <= round53 (hundred_thousand + Z.pos mx * 2 ^ (ex + scale))).
      { rewrite <- round53_hundred_thousand at 1. apply round53_mono; lia. }
      assert (Hhigh : round53 (hundred_thousand + Z.pos mx * 2 ^ (ex + scale))
                      <= 8589934591999999 * 2 ^ 1074).
      { rewrite <- round53_sum_top. apply round53_mono; lia. }
      assert (Hscale : 0 < 2 ^ scale) by (apply Z.pow_pos_nonneg; unfold scale; lia).
      pose proof hundred_thousand_eq as Heq.
      pose proof sum_top_round_lt as Hlt.
      set (R := round53 (hundred_thousand + Z.pos mx * 2 ^ (ex + scale))) in *.
      set (unit := 2 ^ scale) in *.
      split.
      * apply Z.div_le_lower_bound; lia.
      * assert (R / unit < 1000000); [| lia].
        apply Z.div_lt_upper_bound; lia.
Qed.

Lemma generateOtp_floor_range (r : spec_float) :
  in_unit_interval r = true ->
  ∃ n, Number.Math_floor
         (Number.add (Number.of_Z 100000) (Number.mul r (Number.of_Z 900000)))
       = Number.IInt n ∧ 100000 <= n <= 999999.
Proof.
  intros Hr. rewrite of_Z_100000, of_Z_900000.
  destruct (in_unit_interval_inv r Hr) as [[s ->] | (m & e & -> & He & Hm)].
  - exists 100000. split; [by destruct s | lia].
  - destruct (product_le_top m e Hm He) as [Hpos Hle].
    destruct (mul_scaled m e 7730941132800000 (-33)) as [Hnn Hval].
    + unfold scale. lia.
    + apply (log2_below _ product_top); [done | done | apply product_top_small].
    + apply sum_floor_range; [done |].
      rewrite Hval, <- round53_product_top. by apply round53_mono.
Qed.

(** *** Numerals of six digits *)

Lemma digit_cases d : 0 <= d <= 9 ->
  d = 0 ∨ d = 1 ∨ d = 2 ∨ d = 3 ∨ d = 4 ∨ d = 5 ∨ d = 6 ∨ d = 7 ∨ d = 8 ∨ d = 9.
Proof. lia. Qed.

Lemma is_digit_digit_char d :
  0 <= d <= 9 -> Number.is_digit (Number.digit_char d) = true.
Proof.
  intros Hd. destruct (digit_cases d Hd) as [-> | [-> | [-> | [-> | [-> | [-> | [-> | [-> | [-> | ->]]]]]]]]];
    reflexivity.
Qed.

Lemma code_of_digit_char d :
  0 <= d <= 9 -> Z.of_nat (nat_of_ascii (Number.digit_char d)) = 48 + d.
Proof.
  intros Hd. destruct (digit_cases d Hd) as [-> | [-> | [-> | [-> | [-> | [-> | [-> | [-> | [-> | ->]]]]]]]]];
    reflexivity.
Qed.

Lemma decimal_six_digits n :
  100000 <= n <= 999999 ->
  Number.decimal n
  = String (Number.digit_char (n / 100000 mod 10))
      (String (Number.digit_char (n / 10000 mod 10))
         (String (Number.digit_char (n / 1000 mod 10))
            (String (Number.digit_char (n / 100 mod 10))
               (String (Number.digit_char (n / 10 mod 10))
                  (String (Number.digit_char (n mod 10)) ""))))).
Proof.
  intros Hn. unfold Number.decimal.
  assert (Hlog : 16 <= Z.log2 n).
  { apply Z.log2_le_pow2; lia. }
  destruct (Z.to_nat (Z.log2 n)) as [| [| [| [| [| fuel]]]]] eqn:Hfuel; try lia.
  cbn [Number.decimal_go].
  rewrite !Z.div_div by lia.
  change (10 * 10) with 100. change (100 * 10) with 1000.
  change (1000 * 10) with 10000. change (10000 * 10) with 100000.
  change (100000 * 10) with 1000000.
  destruct (Z.eqb_spec (n / 10) 0); [Z.div_mod_to_equations; lia |].
  destruct (Z.eqb_spec (n / 100) 0); [Z.div_mod_to_equations; lia |].
  destruct (Z.eqb_spec (n / 1000) 0); [Z.div_mod_to_equations; lia |].
  destruct (Z.eqb_spec (n / 10000) 0); [Z.div_mod_to_equations; lia |].
  destruct (Z.eqb_spec (n / 100000) 0); [Z.div_mod_to_equations; lia |].
  destruct (Z.eqb_spec (n / 1000000) 0); [| Z.div_mod_to_equations; lia].
  reflexivity.
Qed.

Lemma decimal_six_digits_facts n :
  100000 <= n <= 999999 ->
  String.length (Number.decimal n) = 6%nat ∧
  Number.all_digits (Number.decimal n) = true ∧
  Number.numeral_value (Number.decimal n) = n.
Proof.
  intros Hn. rewrite (decimal_six_digits n Hn).
  assert (H0 : 0 <= n mod 10 <= 9) by (Z.div_mod_to_equations; lia).
  assert (H1 : 0 <= n / 10 mod 10 <= 9) by (Z.div_mod_to_equations; lia).
  assert (H2 : 0 <= n / 100 mod 10 <= 9) by (Z.div_mod_to_equations; lia).
  assert (H3 : 0 <= n / 1000 mod 10 <= 9) by (Z.div_mod_to_equations; lia).
  assert (H4 : 0 <= n / 10000 mod 10 <= 9) by (Z.div_mod_to_equations; lia).
  assert (H5 : 0 <= n / 100000 mod 10 <= 9) by (Z.div_mod_to_equations; lia).
  split; [reflexivity |]. split.
  - cbn [Number.all_digits]. rewrite !is_digit_digit_char by done. reflexivity.
  - unfold Number.numeral_value. cbn [Number.value_from].
    rewrite !code_of_digit_char by done.
    Z.div_mod_to_equations. lia.
Qed.

(** C7: for every value of the random source in the interval from 0 to 1,
    1 excluded, the code [generateOtp] produces is the decimal numeral of an
    integer between 100000 and 999999: a string of exactly six characters,
    all of them digits, whose value is that integer. *)
Theorem generateOtp_six_digits (e : env) :
  in_unit_interval (random e) = true →
  ∃ n, 100000 ≤ n ≤ 999999 ∧
       generateOtp e = Number.decimal n ∧
       String.length (generateOtp e) = 6%nat ∧
       Number.all_digits (generateOtp e) = true ∧
       Number.numeral_value (generateOtp e) = n.
Proof.
  intros Hr. unfold generateOtp.
  destruct (generateOtp_floor_range (random e) Hr) as (n & -> & Hn).
  exists n. split; [done |].
  assert (Hstring : Number.toString (Number.IInt n) = Number.decimal n).
  { simpl. destruct (Z.ltb_spec n 0); [lia | done]. }
  rewrite Hstring. split; [done |]. by apply decimal_six_digits_facts.
Qed.

Lemma generateOtp_six_digits_witness :
  in_unit_interval (random (sample_env 0 one_half None)) = true ∧
  ∃ n, 100000 ≤ n ≤ 999999 ∧
       generateOtp (sample_env 0 one_half None) = Number.decimal n.
Proof.
  assert (H : in_unit_interval (random (sample_env 0 one_half None)) = true)
    by (vm_compute; reflexivity).
  split; [exact H |].
  destruct (generateOtp_six_digits (sample_env 0 one_half None) H)
    as (n & Hn & Hcode & _).
  exists n. split; [exact Hn | exact Hcode].
Defined.

(** ** Further properties of the service *)

Lemma endsWith_iff (s suffix : string) :
  endsWith s suffix = true ↔ ∃ front, s = (front ++ suffix)%string.
Proof.
  split.
  - induction s as [| c s IH]; cbn [endsWith].
    + rewrite orb_false_r. intros H. apply String.eqb_eq in H. subst.
      by exists "".
    + intros H. apply orb_true_iff in H as [H | H].
      * apply String.eqb_eq in H. rewrite H. by exists "".
      * destruct (IH H) as [front ->]. by exists (String c front).
  - intros [front ->]. induction front as [| c front IH].
    + change ("" ++ suffix)%string with suffix.
      destruct suffix; cbn [endsWith]; by rewrite String.eqb_refl.
    + change (String c front ++ suffix)%string
        with (String c (front ++ suffix)%string).
      cbn [endsWith]. by rewrite IH, orb_true_r.
Qed.

Lemma verifyOtp_frame (e : env) (email candidate : string) (w : world) :
  outbox (snd (verifyOtp e email candidate w)) = outbox w ∧
  calls (snd (verifyOtp e email candidate w)) = calls w ∧
  (otpStorage (snd (verifyOtp e email candidate w)) = otpStorage w ∨
   otpStorage (snd (verifyOtp e email candidate w))
     = delete email (otpStorage w)).
Proof.
  destruct (otpStorage w !! email) as [record |] eqn:Hrec.
  - rewrite (verifyOtp_own _ _ _ _ _ Hrec).
    destruct (expiry record <? now e); simpl; [by auto |].
    destruct (negb (String.eqb (otp record) candidate)); simpl; by auto.
  - destruct (decide (email ∈ Object_prototype_keys)).
    + rewrite verifyOtp_inherited by done. by auto.
    + rewrite verifyOtp_undefined by done. by auto.
Qed.

(** X1: a code is good for one verification.  For a subject the allowlist
    accepts, once [verifyOtp] has returned, every later [verifyOtp] for that
    subject, whatever the candidate and the time, throws 'No OTP found for
    this email.' and changes nothing. *)
Theorem verified_code_is_spent (e1 e2 : env) (email candidate later : string)
    (w : world) (b : bool) :
  endsWith email "@gmail.com" = true →
  fst (verifyOtp e1 email candidate w) = Return b →
  verifyOtp e2 email later (snd (verifyOtp e1 email candidate w))
    = (Throw (Error NotFoundError), snd (verifyOtp e1 email candidate w)).
Proof.
  intros Hvalid Hok.
  destruct (verifyOtp_success_inv _ _ _ _ _ Hok) as (_ & record & _ & _ & _ & ->).
  apply verifyOtp_undefined; [apply lookup_delete_eq |].
  by apply endsWith_gmail_not_inherited.
Qed.

Lemma verified_code_is_spent_witness :
  endsWith "a@gmail.com" "@gmail.com" = true ∧
  fst (verifyOtp (sample_env 1000 one_half None) "a@gmail.com" "550000"
         (after_issue (sample_env 0 one_half None) "a@gmail.com" initial_world))
    = Return true ∧
  fst (verifyOtp (sample_env 2000 one_half None) "a@gmail.com" "550000"
         (snd (verifyOtp (sample_env 1000 one_half None) "a@gmail.com" "550000"
                 (after_issue (sample_env 0 one_half None) "a@gmail.com"
                    initial_world))))
    = Throw (Error NotFoundError).
Proof.
  assert (H1 : endsWith "a@gmail.com" "@gmail.com" = true) by reflexivity.
  assert (H2 : fst (verifyOtp (sample_env 1000 one_half None) "a@gmail.com"
                      "550000"
                      (after_issue (sample_env 0 one_half None) "a@gmail.com"
                         initial_world)) = Return true)
    by (vm_compute; reflexivity).
  split; [exact H1 |]. split; [exact H2 |].
  exact (f_equal fst
           (verified_code_is_spent (sample_env 1000 one_half None)
              (sample_env 2000 one_half None) "a@gmail.com" "550000" "550000"
              _ true H1 H2)).
Defined.

(** X2: [verifyOtp] never returns [false].  When it returns, the value is
    [true], the store held a record for the subject with exactly the
    candidate as its code and an expiry not before the time of the call,
    that record is deleted and nothing is sent. *)
Theorem verify_returns_only_true (e : env) (email candidate : string)
    (w : world) (b : bool) :
  fst (verifyOtp e email candidate w) = Return b →
  b = true ∧
  (∃ record, otpStorage w !! email = Some record ∧
             otp record = candidate ∧ now e ≤ expiry record) ∧
  otpStorage (snd (verifyOtp e email candidate w))
    = delete email (otpStorage w) ∧
  outbox (snd (verifyOtp e email candidate w)) = outbox w.
Proof.
  intros Hok.
  destruct (verifyOtp_success_inv _ _ _ _ _ Hok)
    as (Hb & record & Hrec & Hcode & Hlive & Hworld).
  split; [done |]. split; [by exists record |].
  rewrite Hworld. done.
Qed.

Lemma verify_returns_only_true_witness :
  fst (verifyOtp (sample_env 1000 one_half None) "a@gmail.com" "550000"
         (after_issue (sample_env 0 one_half None) "a@gmail.com" initial_world))
    = Return true ∧
  otpStorage (snd (verifyOtp (sample_env 1000 one_half None) "a@gmail.com"
                     "550000"
                     (after_issue (sample_env 0 one_half None) "a@gmail.com"
                        initial_world)))
    = delete "a@gmail.com"
        (otpStorage (after_issue (sample_env 0 one_half None) "a@gmail.com"
                       initial_world)).
Proof.
  assert (H : fst (verifyOtp (sample_env 1000 one_half None) "a@gmail.com"
                     "550000"
                     (after_issue (sample_env 0 one_half None) "a@gmail.com"
                        initial_world)) = Return true)
    by (vm_compute; reflexivity).
  split; [exact H |].
  exact (proj1 (proj2 (proj2 (verify_returns_only_true _ _ _ _ _ H)))).
Defined.

(** X3: the expiry instant itself is still inside the validity window.  The
    test is [record.expiry < Date.now()], so at a time equal to the expiry
    the stored code is accepted, and one millisecond later it is not. *)
Theorem verify_at_expiry_instant (e e' : env) (email : string) (w : world)
    (record : PasscodeRecord) :
  otpStorage w !! email = Some record →
  now e = expiry record →
  now e' = expiry record + 1 →
  fst (verifyOtp e email (otp record) w) = Return true ∧
  fst (verifyOtp e' email (otp record) w) = Throw (Error ExpiredError).
Proof.
  intros Hrec Hnow Hnow'. split.
  - rewrite (verifyOtp_right_code _ _ _ _ Hrec); [done | lia].
  - rewrite (verifyOtp_own _ _ _ _ _ Hrec).
    by destruct (Z.ltb_spec (expiry record) (now e')); [| lia].
Qed.

Lemma verify_at_expiry_instant_witness :
  otpStorage (after_issue (sample_env 0 one_half None) "a@gmail.com" initial_world)
    !! "a@gmail.com" = Some (issued (sample_env 0 one_half None)) ∧
  now (sample_env 300000 one_half None)
    = expiry (issued (sample_env 0 one_half None)) ∧
  now (sample_env 300001 one_half None)
    = expiry (issued (sample_env 0 one_half None)) + 1 ∧
  fst (verifyOtp (sample_env 300000 one_half None) "a@gmail.com"
         (otp (issued (sample_env 0 one_half None)))
         (after_issue (sample_env 0 one_half None) "a@gmail.com" initial_world))
    = Return true.
Proof.
  assert (Hrec : otpStorage (after_issue (sample_env 0 one_half None)
                               "a@gmail.com" initial_world)
                   !! "a@gmail.com" = Some (issued (sample_env 0 one_half None)))
    by apply lookup_insert_eq.
  split; [exact Hrec |]. split; [reflexivity |]. split; [reflexivity |].
  exact (proj1 (verify_at_expiry_instant (sample_env 300000 one_half None)
                  (sample_env 300001 one_half None) "a@gmail.com" _ _
                  Hrec eq_refl eq_refl)).
Defined.

(** X4: [verifyOtp] touches nothing but the record of its subject: it sends
    nothing, and the record of every other subject is as it was. *)
Theorem verify_leaves_the_rest (e : env) (email candidate other : string)
    (w : world) :
  other ≠ email →
  outbox (snd (verifyOtp e email candidate w)) = outbox w ∧
  otpStorage (snd (verifyOtp e email candidate w)) !! other
    = otpStorage w !! other.
Proof.
  intros Hother.
  destruct (verifyOtp_frame e email candidate w) as (Hout & _ & [-> | ->]).
  - done.
  - split; [done |]. by apply lookup_delete_ne.
Qed.

Lemma verify_leaves_the_rest_witness :
  "b@gmail.com" ≠ "a@gmail.com" ∧
  otpStorage (snd (verifyOtp (sample_env 1000 one_half None) "a@gmail.com"
                     "550000"
                     (after_issue (sample_env 0 one_half None) "b@gmail.com"
                        initial_world))) !! "b@gmail.com"
  = otpStorage (after_issue (sample_env 0 one_half None) "b@gmail.com"
                  initial_world) !! "b@gmail.com".
Proof.
  assert (H : "b@gmail.com" ≠ "a@gmail.com") by discriminate.
  split; [exact H |].
  exact (proj2 (verify_leaves_the_rest (sample_env 1000 one_half None)
                  "a@gmail.com" "550000" "b@gmail.com" _ H)).
Defined.

(** X5: the code sent is the code stored.  For a subject the allowlist
    accepts, [generateAndSendOtp] makes exactly one request to the gateway,
    addressed to the subject, authorized with the configured key, whose
    message quotes the very code of the record it has just stored; the
    records of other subjects are as they were. *)
Theorem issue_sends_stored_code (e : env) (email : string) (w : world) :
  endsWith email "@gmail.com" = true →
  let w1 := snd (generateAndSendOtp e email w) in
  ∃ record request,
    otpStorage w1 !! email = Some record ∧
    outbox w1 = (outbox w ++ [request])%list ∧
    url request = "https://www.fast2sms.com/dev/bulkV2" ∧
    numbers request = email ∧
    authorization request = FAST2SMS_API_KEY ∧
    message request
      = ("Your OTP is " ++ otp record ++ ". It is valid for 5 minutes.")%string ∧
    ∀ other, other ≠ email → otpStorage w1 !! other = otpStorage w !! other.
Proof.
  intros Hvalid w1. subst w1. rewrite generateAndSendOtp_valid by done.
  exists (issued e), (otp_request email (generateOtp e)). simpl.
  split; [apply lookup_insert_eq |]. repeat (split; [done |]).
  intros other Hother. by apply lookup_insert_ne.
Qed.

Lemma issue_sends_stored_code_witness :
  endsWith "a@gmail.com" "@gmail.com" = true ∧
  ∃ record request,
    otpStorage (snd (generateAndSendOtp (sample_env 0 one_half None)
                       "a@gmail.com" initial_world)) !! "a@gmail.com"
      = Some record ∧
    outbox (snd (generateAndSendOtp (sample_env 0 one_half None)
                   "a@gmail.com" initial_world))
      = ([] ++ [request])%list ∧
    message request
      = ("Your OTP is " ++ otp record ++ ". It is valid for 5 minutes.")%string.
Proof.
  assert (H : endsWith "a@gmail.com" "@gmail.com" = true) by reflexivity.
  split; [exact H |].
  destruct (issue_sends_stored_code (sample_env 0 one_half None) "a@gmail.com"
              initial_world H)
    as (record & request & Hrec & Hout & _ & _ & _ & Hmsg & _).
  exists record, request. split; [exact Hrec |]. split; [exact Hout | exact Hmsg].
Defined.

(** X6: [sendOtp] makes exactly one request and never touches the store; it
    returns when the gateway accepts the request, and whatever the reason of
    a rejection it throws 'Failed to send OTP. Please try again.': the
    reason given by the gateway does not reach the caller. *)
Theorem sendOtp_one_request (e : env) (email code : string) (w : world) :
  let result := sendOtp e email code w in
  otpStorage (snd result) = otpStorage w ∧
  outbox (snd result) = (outbox w ++ [otp_request email code])%list ∧
  fst result = match gateway e (otp_request email code) with
               | None => Return tt
               | Some _ => Throw (Error DeliveryError)
               end.
Proof.
  unfold sendOtp, try_catch, axios_post. simpl.
  by destruct (gateway e (otp_request email code)).
Qed.

(** X7: the keys of the store are accepted subjects.  Starting from the
    empty store, after any sequence of calls of [generateAndSendOtp] and
    [verifyOtp], with any arguments, every key that has a record ends with
    "@gmail.com", and so is none of the names of [Object.prototype]. *)
Theorem store_keys_are_accepted (ops : list operation) (key : string)
    (record : PasscodeRecord) :
  otpStorage (run ops initial_world) !! key = Some record →
  endsWith key "@gmail.com" = true ∧ key ∉ Object_prototype_keys.
Proof.
  intros Hrec.
  assert (Hkey : endsWith key "@gmail.com" = true).
  { exact (run_keys_accepted ops initial_world initial_keys_accepted
             key record Hrec). }
  split; [done |]. by apply endsWith_gmail_not_inherited.
Qed.

Lemma store_keys_are_accepted_witness :
  otpStorage (run [Issue (sample_env 0 one_half None) "a@gmail.com";
                   Issue (sample_env 0 one_half None) "toString"]
                initial_world) !! "a@gmail.com"
    = Some (issued (sample_env 0 one_half None)) ∧
  endsWith "a@gmail.com" "@gmail.com" = true.
Proof.
  assert (H : otpStorage (run [Issue (sample_env 0 one_half None) "a@gmail.com";
                               Issue (sample_env 0 one_half None) "toString"]
                            initial_world) !! "a@gmail.com"
              = Some (issued (sample_env 0 one_half None)))
    by (vm_compute; reflexivity).
  split; [exact H |].
  exact (proj1 (store_keys_are_accepted _ _ _ H)).
Defined.

(** X8: an expired record is removed by the attempt that finds it.  For a
    subject the allowlist accepts whose record has expired, [verifyOtp]
    throws 'OTP has expired.' once; every later attempt, at any time and
    with any candidate, throws 'No OTP found for this email.'. *)
Theorem expired_record_is_gone (e e' : env) (email candidate later : string)
    (w : world) (record : PasscodeRecord) :
  endsWith email "@gmail.com" = true →
  otpStorage w !! email = Some record →
  expiry record < now e →
  fst (verifyOtp e email candidate w) = Throw (Error ExpiredError) ∧
  verifyOtp e' email later (snd (verifyOtp e email candidate w))
    = (Throw (Error NotFoundError), snd (verifyOtp e email candidate w)).
Proof.
  intros Hvalid Hrec Hexpired.
  rewrite (verifyOtp_own _ _ _ _ _ Hrec).
  destruct (Z.ltb_spec (expiry record) (now e)); [| lia]. simpl.
  split; [done |].
  apply verifyOtp_undefined; [apply lookup_delete_eq |].
  by apply endsWith_gmail_not_inherited.
Qed.

Lemma expired_record_is_gone_witness :
  endsWith "a@gmail.com" "@gmail.com" = true ∧
  otpStorage (after_issue (sample_env 0 one_half None) "a@gmail.com" initial_world)
    !! "a@gmail.com" = Some (issued (sample_env 0 one_half None)) ∧
  expiry (issued (sample_env 0 one_half None))
    < now (sample_env 360000 one_half None) ∧
  fst (verifyOtp (sample_env 360000 one_half None) "a@gmail.com" "550000"
         (after_issue (sample_env 0 one_half None) "a@gmail.com" initial_world))
    = Throw (Error ExpiredError).
Proof.
  assert (H1 : endsWith "a@gmail.com" "@gmail.com" = true) by reflexivity.
  assert (H2 : otpStorage (after_issue (sample_env 0 one_half None)
                             "a@gmail.com" initial_world)
                 !! "a@gmail.com" = Some (issued (sample_env 0 one_half None)))
    by apply lookup_insert_eq.
  assert (H3 : expiry (issued (sample_env 0 one_half None))
                 < now (sample_env 360000 one_half None)) by reflexivity.
  split; [exact H1 |]. split; [exact H2 |]. split; [exact H3 |].
  exact (proj1 (expired_record_is_gone (sample_env 360000 one_half None)
                  (sample_env 360000 one_half None) "a@gmail.com" "550000"
                  "550000" _ _ H1 H2 H3)).
Defined.

(** X9: in every state the service can reach from the empty store, a
    verification for one of the names of [Object.prototype] throws
    'Invalid OTP.', never 'No OTP found for this email.', whatever the
    candidate, and changes nothing. *)
Theorem inherited_names_always_mismatch (ops : list operation) (e : env)
    (name candidate : string) :
  name ∈ Object_prototype_keys →
  verifyOtp e name candidate (run ops initial_world)
    = (Throw (Error MismatchError), run ops initial_world).
Proof.
  intros Hname. apply verifyOtp_inherited; [| done].
  destruct (otpStorage (run ops initial_world) !! name) as [record |] eqn:Hrec;
    [| done].
  exfalso.
  pose proof (run_keys_accepted ops initial_world initial_keys_accepted
                name record Hrec) as Hkey.
  by apply (endsWith_gmail_not_inherited name Hkey).
Qed.

Lemma inherited_names_always_mismatch_witness :
  "valueOf" ∈ Object_prototype_keys ∧
  fst (verifyOtp (sample_env 0 one_half None) "valueOf" "000000"
         (run [Issue (sample_env 0 one_half None) "a@gmail.com"] initial_world))
    = Throw (Error MismatchError).
Proof.
  assert (H : "valueOf" ∈ Object_prototype_keys)
    by (unfold Object_prototype_keys; set_solver).
  split; [exact H |].
  exact (f_equal fst
           (inherited_names_always_mismatch
              [Issue (sample_env 0 one_half None) "a@gmail.com"]
              (sample_env 0 one_half None) "valueOf" "000000" H)).
Defined.

(** X10: the allowlist accepts exactly the strings that end with
    "@gmail.com", compared character by character: [generateAndSendOtp]
    throws 'Only Gmail addresses are allowed.' if and only if the subject is
    not some string, possibly empty, followed by "@gmail.com". *)
Theorem allowlist_is_the_suffix (e : env) (email : string) (w : world) :
  fst (generateAndSendOtp e email w) = Throw (Error InvalidSubjectError)
  ↔ ¬ ∃ front, email = (front ++ "@gmail.com")%string.
Proof.
  rewrite <- endsWith_iff.
  destruct (endsWith email "@gmail.com") eqn:Hvalid.
  - rewrite generateAndSendOtp_valid by done. simpl.
    split; [| done]. by destruct (gateway e _).
  - rewrite generateAndSendOtp_invalid by done. simpl. split; [| done].
    intros _. discriminate.
Qed.

(** X11: wrong guesses are never counted.  While the record of a subject has
    not expired, any number of calls of [verifyOtp] with candidates other
    than the stored code leave the world exactly as it was, and the stored
    code is accepted afterwards. *)
Theorem wrong_guesses_keep_record (attempts : list (env * string)) (e : env)
    (email : string) (w : world) (record : PasscodeRecord) :
  otpStorage w !! email = Some record →
  Forall (λ a, now a.1 ≤ expiry record ∧ a.2 ≠ otp record) attempts →
  now e ≤ expiry record →
  run (map (λ a, Verify a.1 email a.2) attempts) w = w ∧
  fst (verifyOtp e email (otp record)
         (run (map (λ a, Verify a.1 email a.2) attempts) w)) = Return true.
Proof.
  intros Hrec Hall Hlive.
  assert (Hrun : run (map (λ a, Verify a.1 email a.2) attempts) w = w).
  { induction Hall as [| [e' c] attempts [Hlive' Hdiff] _ IH]; [done |].
    simpl in *. unfold run in *. simpl.
    by rewrite (verifyOtp_wrong_code _ _ _ _ _ Hrec Hlive' Hdiff). }
  rewrite Hrun. split; [done |].
  by rewrite (verifyOtp_right_code _ _ _ _ Hrec Hlive).
Qed.

Lemma wrong_guesses_keep_record_witness :
  otpStorage (after_issue (sample_env 0 one_half None) "a@gmail.com" initial_world)
    !! "a@gmail.com" = Some (issued (sample_env 0 one_half None)) ∧
  fst (verifyOtp (sample_env 3000 one_half None) "a@gmail.com" "550000"
         (run (map (λ a, Verify a.1 "a@gmail.com" a.2)
                 [(sample_env 1000 one_half None, "000000");
                  (sample_env 2000 one_half None, "999999")])
            (after_issue (sample_env 0 one_half None) "a@gmail.com"
               initial_world)))
    = Return true.
Proof.
  assert (Hrec : otpStorage (after_issue (sample_env 0 one_half None)
                               "a@gmail.com" initial_world)
                   !! "a@gmail.com" = Some (issued (sample_env 0 one_half None)))
    by apply lookup_insert_eq.
  assert (Hall : Forall (λ a : env * string,
                           now a.1 ≤ expiry (issued (sample_env 0 one_half None))
                           ∧ a.2 ≠ otp (issued (sample_env 0 one_half None)))
                   [(sample_env 1000 one_half None, "000000");
                    (sample_env 2000 one_half None, "999999")]).
  { repeat constructor; simpl; try (vm_compute; discriminate). }
  assert (Hlive : now (sample_env 3000 one_half None)
                  ≤ expiry (issued (sample_env 0 one_half None)))
    by (vm_compute; discriminate).
  split; [exact Hrec |].
  exact (proj2 (wrong_guesses_keep_record _ (sample_env 3000 one_half None)
                  "a@gmail.com" _ _ Hrec Hall Hlive)).
Defined.

(** ** Further properties of the endpoint *)

Lemma verifyOtp_any_logged (e : env) (email candidate : value) (w : world)
    (log : list service_call) :
  verifyOtp_any e email candidate
    {| otpStorage := otpStorage w; outbox := outbox w; calls := log |}
  = (fst (verifyOtp_any e email candidate w),
     {| otpStorage := otpStorage (snd (verifyOtp_any e email candidate w));
        outbox := outbox w;
        calls := log |}).
Proof.
  unfold verifyOtp_any, verifyOtp, mbind, M_bind, bind, read_storage.
  destruct (ToPropertyKey e email) as [key |]; [| done].
  destruct candidate; simpl;
    destruct (get_property (otpStorage w) key) as [| record |]; try done;
    destruct (expiry record <? now e); try done;
    by destruct (negb (String.eqb (otp record) _)).
Qed.

Lemma verifyOtp_any_returns_true (e : env) (email candidate : value) (w : world)
    (b : bool) :
  fst (verifyOtp_any e email candidate w) = Return b →
  b = true ∧ ∃ s, candidate = VString s.
Proof.
  unfold verifyOtp_any, verifyOtp, mbind, M_bind, bind, read_storage.
  destruct (ToPropertyKey e email) as [key |]; [| done].
  destruct candidate; simpl;
    destruct (get_property (otpStorage w) key) as [| record |]; try done;
    destruct (expiry record <? now e); try done.
  destruct (negb (String.eqb (otp record) s)); simpl; [done |].
  intros [= <-]. split; [done |]. by exists s.
Qed.



(** X13: a POST request whose body has no truthy [email] (the body is a
    primitive or an array, the member is missing, [null], [false], a zero
    or the empty string) is answered with 400 'Email is required.',
    whatever its [otp]; neither operation of the service is called and the
    world is as it was. *)
Theorem handler_requires_email (e : env) (req : request) (w : world)
    (b : value) :
  method req = "POST" →
  body req = Some b →
  b ≠ VNull →
  truthy (get_member "email" b) = false →
  handler e req w
  = (Return {| status := 400; headers := [];
               payload := JError "Email is required." |}, w).
Proof.
  intros Hmethod Hbody Hb Hfalsy. unfold handler, try_catch.
  rewrite Hmethod, Hbody. simpl String.eqb. cbv iota.
  destruct b as [| flag | x | s | items | members]; [done | ..];
    cbv iota beta zeta; cbn [get_member] in *; try reflexivity.
  destruct (lookup_member "email" members) as [email |]; [| reflexivity].
  by rewrite Hfalsy.
Qed.

Lemma handler_requires_email_witness :
  VObject [("otp", VString "123456"); ("email", VString "")] ≠ VNull ∧
  truthy (get_member "email"
            (VObject [("otp", VString "123456"); ("email", VString "")]))
    = false ∧
  handler (sample_env 0 one_half None)
    {| method := "POST";
       body := Some (VObject [("otp", VString "123456");
                              ("email", VString "")]) |}
    initial_world
  = (Return {| status := 400; headers := [];
               payload := JError "Email is required." |}, initial_world).
Proof.
  assert (H : VObject [("otp", VString "123456"); ("email", VString "")]
              ≠ VNull) by discriminate.
  split; [exact H |]. split; [reflexivity |].
  exact (handler_requires_email (sample_env 0 one_half None)
           {| method := "POST";
              body := Some (VObject [("otp", VString "123456");
                                     ("email", VString "")]) |}
           initial_world _ eq_refl eq_refl H eq_refl).
Defined.

(** X14: for a POST request with a truthy [email] and a truthy [otp] the
    handler calls [verifyOtp] with the two values and never
    [generateAndSendOtp]: the log grows by that one call, nothing is sent,
    the store is the one the call leaves, and the answer is 200 with
    [success: true] when the call returns and 500 with the message of the
    error when it throws, which it does for every [otp] that is not a
    string.  No answer carries [success: false]. *)
Theorem handler_truthy_otp_verifies (e : env) (req : request) (w : world)
    (b email candidate : value) :
  method req = "POST" →
  body req = Some b →
  get_member "email" b = Some email →
  truthy (Some email) = true →
  get_member "otp" b = Some candidate →
  truthy (Some candidate) = true →
  let check := verifyOtp_any e email candidate w in
  calls (snd (handler e req w))
    = (calls w ++ [CalledVerifyOtp email candidate])%list ∧
  outbox (snd (handler e req w)) = outbox w ∧
  otpStorage (snd (handler e req w)) = otpStorage (snd check) ∧
  fst (handler e req w)
    = Return (match fst check with
              | Return _ => {| status := 200; headers := [];
                               payload := JSuccess true |}
              | Throw error => {| status := 500; headers := [];
                                  payload := JError (message_of error) |}
              end) ∧
  ((∀ s, candidate ≠ VString s) → ∃ error, fst check = Throw error).
Proof.
  intros Hmethod Hbody Hemail Htruthy Hotp Htruthy' check. subst check.
  destruct b as [| flag | x | s | items | members]; try discriminate.
  simpl in Hemail, Hotp.
  pose proof (verifyOtp_any_returns_true e email candidate w) as Htrue.
  unfold handler, try_catch. rewrite Hmethod, Hbody. simpl String.eqb.
  cbv iota beta zeta. unfold get_member. rewrite Hemail, Htruthy.
  rewrite Hotp, Htruthy'.
  unfold mbind, M_bind, bind, record_call. simpl.
  rewrite verifyOtp_any_logged.
  destruct (fst (verifyOtp_any e email candidate w)) as [ok | error]; simpl.
  - destruct (Htrue ok eq_refl) as [-> [s ->]].
    repeat split. intros Hnot. by destruct (Hnot s).
  - repeat split. intros _. by exists error.
Qed.

Lemma handler_truthy_otp_verifies_witness :
  truthy (Some (VString "a@gmail.com")) = true ∧
  truthy (Some (VNumber (Number.of_Z 550000))) = true ∧
  fst (handler (sample_env 1000 one_half None)
         {| method := "POST";
            body := Some (VObject [("email", VString "a@gmail.com");
                                   ("otp", VNumber (Number.of_Z 550000))]) |}
         (after_issue (sample_env 0 one_half None) "a@gmail.com" initial_world))
  = Return {| status := 500; headers := [];
              payload := JError "Invalid OTP." |}.
Proof.
  split; [reflexivity |]. split; [reflexivity |].
  destruct (handler_truthy_otp_verifies (sample_env 1000 one_half None)
              {| method := "POST";
                 body := Some (VObject [("email", VString "a@gmail.com");
                                        ("otp", VNumber (Number.of_Z 550000))]) |}
              (after_issue (sample_env 0 one_half None) "a@gmail.com"
                 initial_world)
              (VObject [("email", VString "a@gmail.com");
                        ("otp", VNumber (Number.of_Z 550000))])
              (VString "a@gmail.com") (VNumber (Number.of_Z 550000))
              eq_refl eq_refl eq_refl eq_refl eq_refl eq_refl)
    as (_ & _ & _ & Hanswer & _).
  rewrite Hanswer. vm_compute. reflexivity.
Defined.

(** X15: the handler never lets an error escape.  Whatever the request, the
    world and the environment, it returns an answer, and the status of the
    answer is 200, 400, 405 or 500. *)
Theorem handler_always_answers (e : env) (req : request) (w : world) :
  ∃ answer,
    fst (handler e req w) = Return answer ∧
    (status answer = 200 ∨ status answer = 400 ∨
     status answer = 405 ∨ status answer = 500).
Proof.
  unfold handler, try_catch.
  destruct (String.eqb (method req) "POST"); [| simpl; eauto 10].
  destruct (body req) as [b |]; [| simpl; eauto 10].
  assert (Hcases :
    ∀ (m : M response) (w0 : world),
      (∀ w1 answer, m w0 = (Return answer, w1) →
                    status answer = 200 ∨ status answer = 400) →
      ∃ answer,
        fst (match m w0 with
             | (Return a, w') => (Return a, w')
             | (Throw error, w') =>
                 ret {| status := 500; headers := [];
                        payload := JError (message_of error) |} w'
             end) = Return answer ∧
        (status answer = 200 ∨ status answer = 400 ∨
         status answer = 405 ∨ status answer = 500)).
  { intros m w0 Hm. destruct (m w0) as [[answer | error] w1] eqn:Hrun; simpl.
    - exists answer. split; [done |]. destruct (Hm w1 answer eq_refl); auto.
    - eauto 10. }
  destruct b as [| flag | x | s | items | members]; [simpl; eauto 10 | ..];
    apply Hcases; intros w1 answer; cbv zeta;
    (destruct (get_member "email" _) as [email |]; [| intros [= <- _]; auto]);
    (destruct (truthy (Some email)); [| intros [= <- _]; auto]);
    (destruct (get_member "otp" _) as [candidate |];
     [destruct (truthy (Some candidate)) |]);
    unfold mbind, M_bind, bind, record_call;
    try (destruct (verifyOtp_any e email candidate _) as [[ok | error] w2];
         [intros [= <- _]; auto | discriminate]);
    (destruct (generateAndSendOtp_any e email _) as [[[] | error] w2];
     [intros [= <- _]; auto | discriminate]).
Qed.
